(** * ACORD 25 certificate analyzer: the upload route and the submission client

    A shallow embedding of [src/app/api/analyze/route.ts] (page truncation,
    the Zod schema [AcordSchema], the retrying model call and the [POST]
    handler) and of [handleSubmit] in [src/app/page.tsx], followed by the
    properties the specification states about them.

    The libraries the code calls (pdf-lib, the AI SDK with its provider)
    are not part of the repository: they appear as the variables of a
    section, and every call to them is recorded in a trace of events. *)

From Stdlib Require Import Strings.String Strings.Ascii Strings.Byte List ZArith QArith Lia Bool Arith.
From Stdlib Require Import DecimalString.
From Equations Require Import Equations.
Import ListNotations.

Set Warnings "-register-all".

Local Close Scope Q_scope.
Local Open Scope string_scope.
Local Open Scope list_scope.
Local Open Scope nat_scope.

(** ** JSON values *)

(** What [JSON.parse] produces.  An object is its list of entries; a key
    is looked up from the front. *)
Inductive Json : Type :=
| JNull
| JBool (b : bool)
| JNumber (q : Q)
| JString (s : string)
| JArray (items : list Json)
| JObject (entries : list (string * Json)).

(** [o[k]]: [None] stands for [undefined]. *)
Fixpoint lookup {A : Type} (k : string) (kv : list (string * A)) : option A :=
  match kv with
  | [] => None
  | (k', v) :: rest => if String.eqb k k' then Some v else lookup k rest
  end.

(** A step into a value: a property name or an array index. *)
Inductive Seg : Type :=
| Key (k : string)
| Index (i : nat).

Definition Path := list Seg.

(** The child a step selects, when there is one. *)
Definition child (c : Json) (seg : Seg) : option Json :=
  match c, seg with
  | JObject kv, Key k => lookup k kv
  | JArray l, Index i => nth_error l i
  | _, _ => None
  end.

Fixpoint get_path (c : Json) (p : Path) : option Json :=
  match p with
  | [] => Some c
  | seg :: p' =>
      match child c seg with
      | Some c' => get_path c' p'
      | None => None
      end
  end.

(** ** The Zod fragment the route uses *)

Inductive Schema : Type :=
| SString                                     (* z.string() *)
| SNumber                                     (* z.number() *)
| SLiteral (lit : string)                     (* z.literal('...') *)
| SNullable (inner : Schema)                  (* .nullable() *)
| SDefault (inner : Schema) (dflt : Json)     (* .default(v) *)
| SArray (elem : Schema)                      (* z.array(...) *)
| SObject (shape : list (string * Schema)).   (* z.object({...}) *)

Inductive IssueCode : Type :=
| invalid_type
| invalid_literal.

Record Issue : Type := mkIssue { issue_path : Path; issue_code : IssueCode }.

Inductive ParseResult : Type :=
| Valid (value : Json)
| Invalid (issues : list Issue).

(** An issue found below [seg] is reported with [seg] in front of its path. *)
Definition under (seg : Seg) (i : Issue) : Issue :=
  mkIssue (seg :: issue_path i) (issue_code i).

Definition at_root (c : IssueCode) : ParseResult := Invalid [mkIssue [] c].

(** Putting the result for one member in front of the results for the
    members after it: every member is parsed, all issues are kept. *)
Definition combine {A : Type} (seg : Seg) (tag : Json -> A)
    (r : ParseResult) (rest : list Issue + list A) : list Issue + list A :=
  match r, rest with
  | Valid v, inr out => inr (tag v :: out)
  | Valid _, inl errs' => inl errs'
  | Invalid errs, inr _ => inl (map (under seg) errs)
  | Invalid errs, inl errs' => inl (map (under seg) errs ++ errs')
  end.

Definition finish {A : Type} (wrap : list A -> Json)
    (r : list Issue + list A) : ParseResult :=
  match r with
  | inr out => Valid (wrap out)
  | inl errs => Invalid errs
  end.

(** [schema.safeParse(input)], the input [None] being [undefined] (a
    property that is absent).  Unknown keys of an object are dropped. *)
Fixpoint parse (s : Schema) (input : option Json) : ParseResult :=
  match s with
  | SString =>
      match input with
      | Some (JString x) => Valid (JString x)
      | _ => at_root invalid_type
      end
  | SNumber =>
      match input with
      | Some (JNumber q) => Valid (JNumber q)
      | _ => at_root invalid_type
      end
  | SLiteral lit =>
      match input with
      | Some (JString x) =>
          if String.eqb x lit then Valid (JString x) else at_root invalid_literal
      | _ => at_root invalid_literal
      end
  | SNullable inner =>
      match input with
      | Some JNull => Valid JNull
      | _ => parse inner input
      end
  | SDefault inner dflt =>
      match input with
      | None => parse inner (Some dflt)
      | _ => parse inner input
      end
  | SArray elem =>
      match input with
      | Some (JArray items) =>
          finish JArray
            ((fix each (l : list Json) (i : nat) : list Issue + list Json :=
                match l with
                | [] => inr []
                | x :: l' =>
                    combine (Index i) (fun v => v) (parse elem (Some x))
                      (each l' (S i))
                end) items 0%nat)
      | _ => at_root invalid_type
      end
  | SObject shape =>
      match input with
      | Some (JObject kv) =>
          finish JObject
            ((fix members (fs : list (string * Schema))
                : list Issue + list (string * Json) :=
                match fs with
                | [] => inr []
                | (k, fs_s) :: fs' =>
                    combine (Key k) (fun v => (k, v))
                      (parse fs_s (lookup k kv)) (members fs')
                end) shape)
      | _ => at_root invalid_type
      end
  end.

(** The two loops of [parse], named, so that lemmas can speak of them. *)
Fixpoint parse_items (elem : Schema) (l : list Json) (i : nat)
    : list Issue + list Json :=
  match l with
  | [] => inr []
  | x :: l' =>
      combine (Index i) (fun v => v) (parse elem (Some x))
        (parse_items elem l' (S i))
  end.

Fixpoint parse_members (kv : list (string * Json))
    (fs : list (string * Schema)) : list Issue + list (string * Json) :=
  match fs with
  | [] => inr []
  | (k, fs_s) :: fs' =>
      combine (Key k) (fun v => (k, v)) (parse fs_s (lookup k kv))
        (parse_members kv fs')
  end.

(** ** The schema of the route *)

Definition certificate_information_schema : Schema :=
  SObject
    [ ("certificate_holder", SString);
      ("certificate_number", SString);
      ("revision_number", SNullable SString);
      ("issue_date", SString) ].

Definition insurer_schema : Schema :=
  SObject
    [ ("insurer_letter", SString);
      ("insurer_name", SString);
      ("naic_code", SNullable SString) ].

Definition coverage_schema : Schema :=
  SObject [ ("limit_type", SString); ("limit_value", SNumber) ].

Definition policy_information_schema : Schema :=
  SObject
    [ ("policy_type", SString);
      ("policy_number", SString);
      ("effective_date", SString);
      ("expiry_date", SString) ].

Definition policy_schema : Schema :=
  SObject
    [ ("policy_information", policy_information_schema);
      ("insurer_letter", SString);
      ("coverages", SDefault (SArray coverage_schema) (JArray [])) ].

Definition primary_details_schema : Schema :=
  SObject
    [ ("full_name", SNullable SString);
      ("email_address", SNullable SString);
      ("doing_business_as", SNullable SString) ].

Definition contact_information_schema : Schema :=
  SObject
    [ ("phone_number", SString);
      ("fax_number", SNullable SString);
      ("license_number", SNullable SString) ].

Definition address_details_schema : Schema :=
  SObject
    [ ("address_line_1", SString);
      ("address_line_2", SNullable SString);
      ("address_line_3", SNullable SString);
      ("city", SString);
      ("state", SString);
      ("zip_code", SString);
      ("country", SLiteral "USA") ].

Definition producer_information_schema : Schema :=
  SObject
    [ ("primary_details", primary_details_schema);
      ("contact_information", contact_information_schema);
      ("address_details", address_details_schema) ].

Definition AcordSchema : Schema :=
  SObject
    [ ("certificate_information", certificate_information_schema);
      ("insurers", SDefault (SArray insurer_schema) (JArray []));
      ("policies", SDefault (SArray policy_schema) (JArray []));
      ("producer_information", producer_information_schema) ].

(** The schema handed to [generateObject]: [AcordSchema.nullable()]. *)
Definition response_schema : Schema := SNullable AcordSchema.

(** The Schema Validator on a candidate the model returned. *)
Definition validate (candidate : Json) : ParseResult :=
  parse response_schema (Some candidate).

(** ** Strings, the way the code uses them *)

(** [s.includes(needle)]. *)
Fixpoint includes (s needle : string) : bool :=
  if String.prefix needle s then true
  else match s with
       | EmptyString => false
       | String _ s' => includes s' needle
       end.

(** The white space [trim] removes, as far as one-byte characters go:
    TAB, LF, VT, FF, CR and SPACE. *)
Definition is_white_space (a : ascii) : bool :=
  let n := nat_of_ascii a in
  ((9 <=? n) && (n <=? 13)) || (n =? 32).

Fixpoint trim_start (s : string) : string :=
  match s with
  | String a s' => if is_white_space a then trim_start s' else s
  | EmptyString => EmptyString
  end.

Fixpoint rev_string (s acc : string) : string :=
  match s with
  | EmptyString => acc
  | String a s' => rev_string s' (String a acc)
  end.

(** [s.trim()]. *)
Definition trim (s : string) : string :=
  rev_string (trim_start (rev_string (trim_start s) "")) "".

Definition to_lower (a : ascii) : ascii :=
  let n := nat_of_ascii a in
  if (65 <=? n) && (n <=? 90) then ascii_of_nat (n + 32) else a.

Fixpoint lower_string (s : string) : string :=
  match s with
  | EmptyString => EmptyString
  | String a s' => String (to_lower a) (lower_string s')
  end.

(** [name.replace(/\.pdf$/i, '')]. *)
Definition strip_pdf_suffix (name : string) : string :=
  let n := String.length name in
  if (4 <=? n) && String.eqb (lower_string (substring (n - 4) 4 name)) ".pdf"
  then substring 0 (n - 4) name
  else name.

(** [String(n)] for a natural number. *)
Definition string_of_nat (n : nat) : string :=
  NilEmpty.string_of_uint (Nat.to_uint n).

(** ** Thrown values, events and the monad of the handlers *)

(** What a [catch] can receive: an instance of [Error], with its name and
    message, or a value that is no [Error] and has no [message], given by
    what [String] makes of it. *)
Inductive Thrown : Type :=
| ErrorObj (name message : string)
| NonError (text : string).

Definition new_Error (message : string) : Thrown := ErrorObj "Error" message.

(** [String(v)] for a thrown value ([Error.prototype.toString]). *)
Definition String_of_thrown (e : Thrown) : string :=
  match e with
  | ErrorObj name message =>
      if String.eqb name "" then message
      else if String.eqb message "" then name
      else (name ++ ": " ++ message)%string
  | NonError text => text
  end.

(** A browser or server [File]: [size] is the property the code reads,
    [bytes] what [arrayBuffer()] yields. *)
Record File : Type := mkFile {
  file_name : string;
  file_type : string;
  file_size : Z;
  file_bytes : list byte
}.

Inductive Side : Type := Client | Server.

(** The calls that leave the code, in the order they happen. *)
Inductive Event : Type :=
| PdfLoad (side : Side) (input : list byte)     (* PDFDocument.load *)
| PdfSave (side : Side)                         (* newPdf.save() *)
| ModelCall (document : list byte)              (* generateObject *)
| Sleep (ms : Z)                                (* setTimeout(r, ms) *)
| Warn (e : Thrown)                             (* console.warn *)
| Upload (file : File).                         (* fetch('/api/analyze') *)

(** The trace so far and the number of requests the model has served. *)
Record World : Type := mkWorld { trace : list Event; served : nat }.

Definition start : World := mkWorld [] 0.

(** The world after further events, [calls] of them requests to the
    model. *)
Definition after (w : World) (events : list Event) (calls : nat) : World :=
  mkWorld (trace w ++ events) (served w + calls).

Inductive Outcome (A : Type) : Type :=
| Threw (e : Thrown)
| Returned (a : A).
Arguments Threw {A} e.
Arguments Returned {A} a.

(** A computation that may throw and that extends the trace. *)
Definition M (A : Type) : Type := World -> Outcome A * World.

Definition ret {A : Type} (a : A) : M A := fun w => (Returned a, w).

Definition throw {A : Type} (e : Thrown) : M A := fun w => (Threw e, w).

Definition bind {A B : Type} (c : M A) (k : A -> M B) : M B :=
  fun w =>
    match c w with
    | (Returned a, w') => k a w'
    | (Threw e, w') => (Threw e, w')
    end.

(** [try { c } catch (e) { handler e }]. *)
Definition try_catch {A : Type} (c : M A) (handler : Thrown -> M A) : M A :=
  fun w =>
    match c w with
    | (Returned a, w') => (Returned a, w')
    | (Threw e, w') => handler e w'
    end.

Definition emit (e : Event) : M unit :=
  fun w => (Returned tt, mkWorld (trace w ++ [e]) (served w)).

Definition lift {A : Type} (o : Outcome A) : M A := fun w => (o, w).

Declare Scope handler_scope.
Delimit Scope handler_scope with handler.
Notation "x <- c ;; k" := (bind c (fun x => k))
  (at level 61, c at next level, right associativity) : handler_scope.
Notation "c ;; k" := (bind c (fun _ => k))
  (at level 61, right associativity) : handler_scope.
Local Open Scope handler_scope.

(** ** Requests and responses *)

Inductive FormValue : Type :=
| FormString (s : string)
| FormFile (f : File).

(** A request is what [req.formData()] does with it: throw, or yield the
    fields of the form. *)
Record NextRequest : Type := mkRequest {
  req_formData : Outcome (list (string * FormValue))
}.

(** [NextResponse.json(body, { status })]. *)
Record NextResponse : Type := mkResponse {
  status : Z;
  body : list (string * Json)
}.

Definition NextResponse_json (body : list (string * Json)) (status : Z)
    : NextResponse := mkResponse status body.

(** What the model's provider does with one request: fail (network or
    provider error, unparsable text), or answer with a JSON value. *)
Inductive ModelReply : Type :=
| ReplyError (e : Thrown)
| ReplyJson (candidate : Json).

(** An attempt fails when the provider fails or when its reply does not
    pass the Schema Validator. *)
Definition reply_fails (r : ModelReply) : Prop :=
  match r with
  | ReplyError _ => True
  | ReplyJson candidate => exists issues, validate candidate = Invalid issues
  end.

(** The state of the page after a submission. *)
Record UiState : Type := mkUi {
  ui_json : Json;
  ui_error : option string;
  ui_loading : bool
}.

Definition MAX_RETRIES : nat := 3.

Definition maxBytes : Z := (4 * 1024 * 1024)%Z.

(** ** The handlers *)

Section Handlers.

(** pdf-lib: a loaded document is the list of its pages.
    [PDFDocument.load] throws on bytes it cannot parse. *)
Variable Page : Type.
Variable pdf_load : list byte -> Outcome (list Page).
Variable pdf_save : list Page -> list byte.
(** What [copyPages] throws at an index the source does not have. *)
Variable copy_fault : Thrown.

(** The AI SDK: the reply of the provider to its [k]-th request, and
    what [generateObject] throws for a reply the schema rejects. *)
Variable model : nat -> list byte -> ModelReply.
Variable no_object : list Issue -> Thrown.

(** [process.env.GEMINI_API_KEY]; [None] when it is not set. *)
Variable GEMINI_API_KEY : option string.

Definition PDFDocument_load (side : Side) (input : list byte)
    : M (list Page) :=
  emit (PdfLoad side input) ;; lift (pdf_load input).

Definition PDFDocument_create : list Page := [].

Fixpoint copyPages (src : list Page) (indices : list nat)
    : M (list Page) :=
  match indices with
  | [] => ret []
  | i :: rest =>
      match nth_error src i with
      | Some p => ps <- copyPages src rest ;; ret (p :: ps)
      | None => throw copy_fault
      end
  end.

Definition addPage (doc : list Page) (p : Page) : list Page := doc ++ [p].

Definition PDFDocument_save (side : Side) (doc : list Page)
    : M (list byte) :=
  emit (PdfSave side) ;; ret (pdf_save doc).

(** [truncatePDFToFivePagesBuffer] of route.ts. *)
Definition truncatePDFToFivePagesBuffer (inputBytes : list byte)
    : M (list byte) :=
  pdfDoc <- PDFDocument_load Server inputBytes ;;
  let pageCount := length pdfDoc in
  if pageCount <=? 5 then ret inputBytes
  else
    let newPdf := PDFDocument_create in
    let indices := [0; 1; 2; 3; 4] in
    copy <- copyPages pdfDoc (filter (fun i => i <? pageCount) indices) ;;
    let newPdf := fold_left addPage copy newPdf in
    PDFDocument_save Server newPdf.

(** [generateObject({ schema, messages: [prompt, file] })]: one request
    to the provider; the reply is validated against the schema. *)
Definition generateObject (schema : Schema) (pdfBytes : list byte)
    : M Json :=
  fun w =>
    let w' := mkWorld (trace w ++ [ModelCall pdfBytes]) (S (served w)) in
    match model (served w) pdfBytes with
    | ReplyError e => (Threw e, w')
    | ReplyJson candidate =>
        match parse schema (Some candidate) with
        | Valid object => (Returned object, w')
        | Invalid issues => (Threw (no_object issues), w')
        end
    end.

(** [!GEMINI_API_KEY || GEMINI_API_KEY.trim() === ''] *)
Definition key_missing : bool :=
  match GEMINI_API_KEY with
  | None => true
  | Some k => String.eqb k "" || String.eqb (trim k) ""
  end.

(** [String((lastError as Error | undefined)?.message || lastError)],
    [None] being the initial [null]. *)
Definition describe (lastError : option Thrown) : string :=
  match lastError with
  | None => "null"
  | Some (ErrorObj name message) =>
      if String.eqb message "" then String_of_thrown (ErrorObj name message)
      else message
  | Some (NonError text) => text
  end.

Definition exhausted (lastError : option Thrown) : Thrown :=
  new_Error
    ("Failed to get response from Gemini via AI SDK after "
     ++ string_of_nat MAX_RETRIES ++ " attempts: "
     ++ describe lastError)%string.

(** [Math.pow(2, attempt) * 1000] *)
Definition delayMs (attempt : nat) : Z := (2 ^ Z.of_nat attempt * 1000)%Z.

(** The [while (attempt < MAX_RETRIES)] loop of [callGeminiUsingAiSdk],
    from the values of [attempt] and [lastError] at its head, with the
    [throw] that follows it. *)
Equations retry (pdfBytes : list byte) (attempt : nat)
    (lastError : option Thrown) (w : World) : Outcome Json * World
    by wf (MAX_RETRIES - attempt) lt :=
  retry pdfBytes attempt lastError w with lt_dec attempt MAX_RETRIES := {
    | left _ =>
        try_catch (generateObject response_schema pdfBytes)
          (fun err =>
             let attempt' := attempt + 1 in
             (if attempt' <? MAX_RETRIES
              then emit (Sleep (delayMs attempt'))
              else ret tt) ;;
             (fun w' => retry pdfBytes attempt' (Some err) w')) w
    | right _ => throw (exhausted lastError) w }.
Next Obligation.
  unfold MAX_RETRIES in *.
  destruct attempt as [|[|[|?]]]; simpl; lia.
Qed.

Definition callGeminiUsingAiSdk (pdfBytes : list byte) : M Json :=
  if key_missing
  then throw (new_Error "GEMINI_API_KEY is not set in environment variables")
  else retry pdfBytes 0 None.

(** The [catch] of [POST]. *)
Definition normalize (e : Thrown) : string :=
  let message :=
    match e with
    | ErrorObj _ message => message
    | NonError _ => "Unknown error"
    end in
  if includes message "GEMINI_API_KEY" then "API key configuration error"
  else if includes message "not a valid PDF"
  then "The uploaded file is not a valid PDF"
  else ("Error processing PDF: " ++ message)%string.

Definition error_response (message : string) : NextResponse :=
  NextResponse_json [("error", JString message)] 400.

(** [POST] of route.ts. *)
Definition POST (req : NextRequest) : M NextResponse :=
  try_catch
    (formData <- lift (req_formData req) ;;
     match lookup "file" formData with
     | Some (FormFile file) =>
         if negb (String.eqb (file_type file) "application/pdf")
         then ret (error_response "Uploaded file must be a PDF")
         else if (file_size file >? maxBytes)%Z
         then ret (error_response "File too large. Max 4MB.")
         else
           let originalBytes := file_bytes file in
           processedBytes <- truncatePDFToFivePagesBuffer originalBytes ;;
           json <- callGeminiUsingAiSdk processedBytes ;;
           ret (NextResponse_json [("data", json)] 200)
     | _ => ret (error_response "No file uploaded")
     end)
    (fun e => ret (error_response (normalize e))).

(** The truncation [handleSubmit] runs before the upload: the [try]
    block, whose value is [fileToSend]. *)
Definition client_truncate (originalFile : File) : M File :=
  let bytes := file_bytes originalFile in
  originalPdf <- PDFDocument_load Client bytes ;;
  let pageCount := length originalPdf in
  if 5 <? pageCount then
    let newPdf := PDFDocument_create in
    let indices := [0; 1; 2; 3; 4] in
    copy <- copyPages originalPdf
              (filter (fun i => i <? pageCount) indices) ;;
    let newPdf := fold_left addPage copy newPdf in
    out <- PDFDocument_save Client newPdf ;;
    ret (mkFile (strip_pdf_suffix (file_name originalFile) ++ ".first5.pdf")
           "application/pdf" (Z.of_nat (length out)) out)
  else ret originalFile.

(** The request the page sends for a file: a form whose field [file]
    holds it. *)
Definition upload_of (f : File) : NextRequest :=
  mkRequest (Returned [("file", FormFile f)]).

(** [fetch('/api/analyze', { method: 'POST', body: formData })] followed
    by [res.json()]: the request reaches [POST]. *)
Definition fetch_analyze (fileToSend : File) : M (list (string * Json)) :=
  emit (Upload fileToSend) ;;
  res <- POST (upload_of fileToSend) ;;
  ret (body res).

(** [result.error] when it is truthy; the field is typed [string]. *)
Definition truthy_error (result : list (string * Json)) : option string :=
  match lookup "error" result with
  | Some (JString m) => if String.eqb m "" then None else Some m
  | _ => None
  end.

(** [result.data ?? null] *)
Definition data_or_null (result : list (string * Json)) : Json :=
  match lookup "data" result with
  | Some d => d
  | None => JNull
  end.

(** [handleSubmit] of page.tsx, from the selected file to the state the
    page is left in. *)
Definition handleSubmit (originalFile : option File) : M UiState :=
  try_catch
    (match originalFile with
     | None => throw (new_Error "Please select a PDF file")
     | Some originalFile =>
         fileToSend <-
           try_catch (client_truncate originalFile)
             (fun clientPdfErr =>
                emit (Warn clientPdfErr) ;; ret originalFile) ;;
         result <- fetch_analyze fileToSend ;;
         match truthy_error result with
         | Some m => throw (new_Error m)
         | None => ret (mkUi (data_or_null result) None false)
         end
     end)
    (fun err =>
       let message :=
         match err with
         | ErrorObj _ message => message
         | NonError _ => "Unknown error"
         end in
       ret (mkUi JNull (Some message) false)).

(** The failure paths of a request: the form cannot be read, holds no
    file, holds a file that is not declared a PDF, is over the size limit
    or does not parse; the credential is missing; every attempt of the
    model call fails. *)
Inductive failure (req : NextRequest) : Prop :=
| form_unreadable (e : Thrown) :
    req_formData req = Threw e -> failure req
| no_file (fields : list (string * FormValue)) :
    req_formData req = Returned fields ->
    (forall f, lookup "file" fields <> Some (FormFile f)) ->
    failure req
| not_pdf (fields : list (string * FormValue)) (f : File) :
    req_formData req = Returned fields ->
    lookup "file" fields = Some (FormFile f) ->
    file_type f <> "application/pdf" ->
    failure req
| too_large (fields : list (string * FormValue)) (f : File) :
    req_formData req = Returned fields ->
    lookup "file" fields = Some (FormFile f) ->
    (file_size f > maxBytes)%Z ->
    failure req
| malformed (fields : list (string * FormValue)) (f : File) (e : Thrown) :
    req_formData req = Returned fields ->
    lookup "file" fields = Some (FormFile f) ->
    pdf_load (file_bytes f) = Threw e ->
    failure req
| no_credential :
    key_missing = true -> failure req
| retries_exhausted :
    (forall k document, reply_fails (model k document)) ->
    failure req.

End Handlers.

(** ** Reading a schema along a path *)

(** The schema below the wrappers [.nullable()] and [.default(v)]. *)
Fixpoint strip (s : Schema) : Schema :=
  match s with
  | SNullable inner => strip inner
  | SDefault inner _ => strip inner
  | _ => s
  end.

(** The schema in charge of the value at path [p]. *)
Fixpoint schema_at (s : Schema) (p : Path) : option Schema :=
  match p with
  | [] => Some s
  | seg :: p' =>
      match strip s, seg with
      | SObject shape, Key k =>
          match lookup k shape with
          | Some s' => schema_at s' p'
          | None => None
          end
      | SArray elem, Index _ => schema_at elem p'
      | _, _ => None
      end
  end.

Fixpoint distinct_keys {A : Type} (kv : list (string * A)) : bool :=
  match kv with
  | [] => true
  | (k, _) :: rest =>
      match lookup k rest with
      | None => distinct_keys rest
      | Some _ => false
      end
  end.

(** Arrays and objects: the values a wrapper hands to its inner schema
    unchanged. *)
Definition is_container (c : Json) : Prop :=
  match c with
  | JArray _ | JObject _ => True
  | _ => False
  end.

Definition country_path : Path :=
  [Key "producer_information"; Key "address_details"; Key "country"].

(** The response has exactly one of [data] and a string [error]. *)
Definition one_of_data_error (body : list (string * Json)) : Prop :=
  (exists json, body = [("data", json)]) \/
  (exists message, body = [("error", JString message)]).

(** ** Sample values *)

Module Sample.

(** A stand-in for pdf-lib: a document is the byte '%' followed by its
    pages, one byte each; other input does not parse. *)
Definition load (input : list byte) : Outcome (list byte) :=
  match input with
  | "%"%byte :: doc => Returned doc
  | _ => Threw (new_Error "Failed to parse PDF document: No PDF header found")
  end.

Definition save (doc : list byte) : list byte := "%"%byte :: doc.

Definition copy_fault : Thrown := new_Error "index out of range".

Definition no_object (issues : list Issue) : Thrown :=
  ErrorObj "AI_NoObjectGeneratedError"
    "No object generated: response did not match schema.".

(** A document of three pages and one of seven. *)
Definition three : list byte := ["%"; "a"; "b"; "c"]%byte.

Definition seven : list byte :=
  ["%"; "a"; "b"; "c"; "d"; "e"; "f"; "g"]%byte.

Definition pdf (name : string) (content : list byte) : File :=
  mkFile name "application/pdf" (Z.of_nat (length content)) content.

(** A text file picked in the file dialog. *)
Definition notes : File :=
  mkFile "notes.txt" "text/plain" 2 ["h"; "i"]%byte.

(** A file of 5 MiB. *)
Definition large : File :=
  mkFile "large.pdf" "application/pdf" (5 * 1024 * 1024)
    ("%"%byte :: repeat "p"%byte (N.to_nat (5 * 1024 * 1024 - 1))).

Definition certificate_information (revision : list (string * Json))
    : Json :=
  JObject
    ([ ("certificate_holder", JString "Acme Holdings LLC");
       ("certificate_number", JString "CN-1") ]
     ++ revision ++
     [ ("issue_date", JString "01/02/2024") ]).

Definition producer_information (country : Json) : Json :=
  JObject
    [ ("primary_details",
       JObject [ ("full_name", JNull);
                 ("email_address", JNull);
                 ("doing_business_as", JString "ABC Insurance Agency") ]);
      ("contact_information",
       JObject [ ("phone_number", JString "1234567890");
                 ("fax_number", JNull);
                 ("license_number", JNull) ]);
      ("address_details",
       JObject [ ("address_line_1", JString "1 Main St");
                 ("address_line_2", JNull);
                 ("address_line_3", JNull);
                 ("city", JString "Springfield");
                 ("state", JString "IL");
                 ("zip_code", JString "62701");
                 ("country", country) ]) ].

Definition policy : Json :=
  JObject
    [ ("policy_information",
       JObject [ ("policy_type", JString "COMMERCIAL GENERAL LIABILITY");
                 ("policy_number", JString "P-1");
                 ("effective_date", JString "01/01/2024");
                 ("expiry_date", JString "01/01/2025") ]);
      ("insurer_letter", JString "A") ].

(** A candidate with every key present. *)
Definition complete : Json :=
  JObject
    [ ("certificate_information",
       certificate_information [("revision_number", JNull)]);
      ("insurers", JArray []);
      ("policies", JArray []);
      ("producer_information", producer_information (JString "USA")) ].

(** No [insurers] key, and one policy without a [coverages] key. *)
Definition without_lists : Json :=
  JObject
    [ ("certificate_information",
       certificate_information [("revision_number", JNull)]);
      ("policies", JArray [policy]);
      ("producer_information", producer_information (JString "USA")) ].

(** [complete] without the key [revision_number]. *)
Definition without_revision : Json :=
  JObject
    [ ("certificate_information", certificate_information []);
      ("insurers", JArray []);
      ("policies", JArray []);
      ("producer_information", producer_information (JString "USA")) ].

(** [complete] with another country. *)
Definition canadian : Json :=
  JObject
    [ ("certificate_information",
       certificate_information [("revision_number", JNull)]);
      ("insurers", JArray []);
      ("policies", JArray []);
      ("producer_information", producer_information (JString "Canada")) ].

(** A provider that is unreachable, then answers with a value the schema
    rejects, twice. *)
Definition failing (k : nat) (document : list byte) : ModelReply :=
  match k with
  | 0 => ReplyError (ErrorObj "TypeError" "fetch failed")
  | 1 => ReplyJson (JObject [])
  | _ => ReplyJson canadian
  end.

(** A provider that answers [null]. *)
Definition declining (k : nat) (document : list byte) : ModelReply :=
  ReplyJson JNull.

End Sample.

(** ** Well-formed schemas *)

(** A schema is built from JavaScript object literals, whose keys are
    distinct at every level. *)
Fixpoint wf_schema (s : Schema) : bool :=
  match s with
  | SNullable inner => wf_schema inner
  | SDefault inner _ => wf_schema inner
  | SArray elem => wf_schema elem
  | SObject shape =>
      distinct_keys shape &&
      (fix all (fs : list (string * Schema)) : bool :=
         match fs with
         | [] => true
         | (_, fs_s) :: fs' => wf_schema fs_s && all fs'
         end) shape
  | _ => true
  end.

Fixpoint wf_members (fs : list (string * Schema)) : bool :=
  match fs with
  | [] => true
  | (_, fs_s) :: fs' => wf_schema fs_s && wf_members fs'
  end.

(** ** Induction on schemas *)

Section SchemaInduction.

Variable P : Schema -> Prop.
Hypothesis P_string : P SString.
Hypothesis P_number : P SNumber.
Hypothesis P_literal : forall lit, P (SLiteral lit).
Hypothesis P_nullable : forall inner, P inner -> P (SNullable inner).
Hypothesis P_default : forall inner dflt, P inner -> P (SDefault inner dflt).
Hypothesis P_array : forall elem, P elem -> P (SArray elem).
Hypothesis P_object :
  forall shape, Forall (fun ks => P (snd ks)) shape -> P (SObject shape).

(** Induction on a schema, with the hypothesis for every member of an
    object. *)
Fixpoint schema_induction (s : Schema) : P s :=
  match s with
  | SString => P_string
  | SNumber => P_number
  | SLiteral lit => P_literal lit
  | SNullable inner => P_nullable inner (schema_induction inner)
  | SDefault inner dflt => P_default inner dflt (schema_induction inner)
  | SArray elem => P_array elem (schema_induction elem)
  | SObject shape =>
      P_object shape
        ((fix members (fs : list (string * Schema))
            : Forall (fun ks => P (snd ks)) fs :=
            match fs with
            | [] => Forall_nil _
            | ks :: fs' =>
                Forall_cons ks (schema_induction (snd ks)) (members fs')
            end) shape)
  end.

End SchemaInduction.

(** ** Further vocabulary for the handlers *)

(** The events of [k] failed attempts in a row, [attempt] being the value
    of the counter before the first of them: each request is followed by
    the wait the [catch] block inserts. *)
Fixpoint failed_attempts (pdfBytes : list byte) (attempt k : nat)
    : list Event :=
  match k with
  | 0 => []
  | S k' =>
      ModelCall pdfBytes :: Sleep (delayMs (attempt + 1))
        :: failed_attempts pdfBytes (attempt + 1) k'
  end.

(** ** What the page renders *)

(** JavaScript truthiness of a JSON value. *)
Definition truthy (j : Json) : bool :=
  match j with
  | JNull => false
  | JBool b => b
  | JNumber q => negb (Qeq_bool q 0)
  | JString s => negb (String.eqb s "")
  | JArray _ | JObject _ => true
  end.

(** Truthiness of the [error] state, a string or null. *)
Definition truthy_message (error : option string) : bool :=
  match error with
  | Some m => negb (String.eqb m "")
  | None => false
  end.

(** [{error && (...)}] *)
Definition shows_error (ui : UiState) : bool := truthy_message (ui_error ui).

(** [{json === null && !loading && !error && (...)}] *)
Definition shows_placeholder (ui : UiState) : bool :=
  match ui_json ui with
  | JNull => negb (ui_loading ui) && negb (truthy_message (ui_error ui))
  | _ => false
  end.

(** [{json && (...)}] *)
Definition shows_results (ui : UiState) : bool := truthy (ui_json ui).

(** ** Choosing a file *)

(** The state the file controls of the page work on: [fileName],
    [isDragOver], and the files of the input element behind
    [fileInputRef], [None] while the ref is not attached. *)
Record Selection : Type := mkSelection {
  fileName : string;
  isDragOver : bool;
  input_files : option (list File)
}.

(** [files?.[0]] of a file list that may be undefined. *)
Definition first_file (files : option (list File)) : option File :=
  match files with
  | Some (f :: _) => Some f
  | _ => None
  end.

(** [setChosenFile]: the name is recorded; the input, when attached, is
    emptied and then given the file, if there is one. *)
Definition setChosenFile (file : option File) (s : Selection) : Selection :=
  mkSelection
    match file with
    | Some f => file_name f
    | None => ""
    end
    (isDragOver s)
    match input_files s with
    | Some _ =>
        Some match file with
             | Some f => [f]
             | None => []
             end
    | None => None
    end.

(** [handleFileChange], on the files of the event's target. *)
Definition handleFileChange (files : option (list File)) (s : Selection)
    : Selection :=
  setChosenFile (first_file files) s.

(** [handleDrop], on the files of the event's data transfer. *)
Definition handleDrop (files : option (list File)) (s : Selection)
    : Selection :=
  let s' := mkSelection (fileName s) false (input_files s) in
  match first_file files with
  | Some file =>
      if String.eqb (file_type file) "application/pdf"
      then setChosenFile (Some file) s'
      else s'
  | None => s'
  end.

Definition handleDragOver (s : Selection) : Selection :=
  mkSelection (fileName s) true (input_files s).

Definition handleDragLeave (s : Selection) : Selection :=
  mkSelection (fileName s) false (input_files s).

(** [resetForm]: result and error are cleared, and so are the name and
    the input. *)
Definition resetForm (page : UiState * Selection) : UiState * Selection :=
  let (ui, s) := page in
  (mkUi JNull None (ui_loading ui),
   mkSelection "" (isDragOver s)
     match input_files s with
     | Some _ => Some []
     | None => None
     end).

(** [fileInputRef.current?.files?.[0] || null], what [handleSubmit]
    takes as the selected file. *)
Definition selected_file (s : Selection) : option File :=
  first_file (input_files s).

(** [disabled={loading || !fileName}] of the submit button. *)
Definition submit_disabled (ui : UiState) (s : Selection) : bool :=
  ui_loading ui || String.eqb (fileName s) "".

(** What the user can do to the file controls. *)
Inductive Action : Type :=
| PickFiles (files : option (list File))     (* the file dialog *)
| DropFiles (files : option (list File))
| DragOver
| DragLeave
| Reset.

Definition act (page : UiState * Selection) (a : Action)
    : UiState * Selection :=
  match a with
  | PickFiles files => (fst page, handleFileChange files (snd page))
  | DropFiles files => (fst page, handleDrop files (snd page))
  | DragOver => (fst page, handleDragOver (snd page))
  | DragLeave => (fst page, handleDragLeave (snd page))
  | Reset => resetForm page
  end.

(** The page as it is first rendered, its input attached. *)
Definition first_page : UiState * Selection :=
  (mkUi JNull None false, mkSelection "" false (Some [])).

Definition is_pick (a : Action) : bool :=
  match a with
  | PickFiles _ => true
  | _ => false
  end.

(** ** Further sample values *)

Module Scenario.

(** A provider that is unreachable, then answers with a value the schema
    rejects, then with a complete candidate. *)
Definition recovering (k : nat) (document : list byte) : ModelReply :=
  match k with
  | 0 => ReplyError (ErrorObj "TypeError" "fetch failed")
  | 1 => ReplyJson (JObject [])
  | _ => ReplyJson Sample.complete
  end.


(** A file that is declared a PDF and does not load. *)
Definition scan : File := Sample.pdf "scan.pdf" ["x"; "y"]%byte.

Definition coi : File := Sample.pdf "coi.pdf" Sample.three.

Definition long : File := Sample.pdf "Long.PDF" Sample.seven.

(** A candidate with one policy that has one coverage, of the given
    amount. *)
Definition priced (amount : Json) : Json :=
  JObject
    [ ("certificate_information",
       Sample.certificate_information [("revision_number", JNull)]);
      ("policies",
       JArray
         [JObject
            [ ("policy_information",
               JObject
                 [ ("policy_type", JString "COMMERCIAL GENERAL LIABILITY");
                   ("policy_number", JString "P-1");
                   ("effective_date", JString "01/01/2024");
                   ("expiry_date", JString "01/01/2025") ]);
              ("insurer_letter", JString "A");
              ("coverages",
               JArray
                 [JObject [ ("limit_type", JString "EACH OCCURRENCE");
                            ("limit_value", amount) ]]) ]]);
      ("producer_information",
       Sample.producer_information (JString "USA")) ].

End Scenario.

(** * Properties *)

(** ** The definitions on small inputs *)

Example includes_middle : includes "hello world" "o w" = true.
Proof. reflexivity. Qed.

Example includes_absent : includes "hello" "lo!" = false.
Proof. reflexivity. Qed.

Example trim_both_ends : trim "  a b  " = "a b".
Proof. reflexivity. Qed.

Example strip_upper_case : strip_pdf_suffix "Scan.PDF" = "Scan".
Proof. reflexivity. Qed.

Example strip_needs_dot : strip_pdf_suffix "pdf" = "pdf".
Proof. reflexivity. Qed.

Example delay_second : delayMs 1 = 2000%Z /\ delayMs 2 = 4000%Z.
Proof. split; reflexivity. Qed.

Example complete_is_valid : validate Sample.complete = Valid Sample.complete.
Proof. reflexivity. Qed.

Example empty_object_is_invalid :
  validate (JObject []) =
  Invalid [mkIssue [Key "certificate_information"] invalid_type;
           mkIssue [Key "producer_information"] invalid_type].
Proof. reflexivity. Qed.

Example number_where_string :
  parse coverage_schema
    (Some (JObject [("limit_type", JNumber 1); ("limit_value", JNumber 1)]))
  = Invalid [mkIssue [Key "limit_type"] invalid_type].
Proof. reflexivity. Qed.

(** ** Lookups and paths *)

Lemma lookup_In {A : Type} (k : string) (kv : list (string * A)) (v : A) :
  lookup k kv = Some v -> In (k, v) kv.
Proof.
  induction kv as [|[k' v'] rest IH]; simpl; [discriminate|].
  destruct (String.eqb_spec k k') as [->|_].
  - intros [= ->]. now left.
  - intros H. right. now apply IH.
Qed.

Lemma get_path_snoc (c : Json) (p : Path) (seg : Seg) :
  get_path c (p ++ [seg]) =
  match get_path c p with
  | Some parent => child parent seg
  | None => None
  end.
Proof.
  revert c. induction p as [|s p IH]; intros c; simpl.
  - now destruct (child c seg).
  - destruct (child c s); [apply IH | reflexivity].
Qed.

Lemma get_path_member (c : Json) (p : Path) (k : string) (v : Json) :
  get_path c (p ++ [Key k]) = Some v ->
  exists kv, get_path c p = Some (JObject kv) /\ lookup k kv = Some v.
Proof.
  rewrite get_path_snoc.
  destruct (get_path c p) as [[]|]; simpl; try discriminate.
  intros H. eauto.
Qed.

(** ** The shape of [parse] on arrays and objects *)

Lemma parse_array (elem : Schema) (items : list Json) :
  parse (SArray elem) (Some (JArray items)) =
  finish JArray (parse_items elem items 0).
Proof.
  simpl. f_equal. generalize 0.
  induction items as [|x l IH]; intros i; simpl; [reflexivity|].
  now rewrite IH.
Qed.

Lemma parse_object (shape : list (string * Schema))
    (kv : list (string * Json)) :
  parse (SObject shape) (Some (JObject kv)) =
  finish JObject (parse_members kv shape).
Proof.
  simpl. f_equal.
  induction shape as [|[k s] fs IH]; simpl; [reflexivity|].
  now rewrite IH.
Qed.

Lemma finish_invalid {A : Type} (wrap : list A -> Json)
    (r : list Issue + list A) (errs : list Issue) :
  finish wrap r = Invalid errs <-> r = inl errs.
Proof.
  destruct r; simpl; split; intros H; inversion H; reflexivity.
Qed.

Lemma finish_valid {A : Type} (wrap : list A -> Json)
    (r : list Issue + list A) (v : Json) :
  finish wrap r = Valid v <-> exists out, r = inr out /\ v = wrap out.
Proof.
  destruct r; simpl; split.
  - discriminate.
  - intros (out & H & _). discriminate.
  - intros [= <-]. eauto.
  - intros (out & [= <-] & ->). reflexivity.
Qed.

Lemma parse_strip (s : Schema) (c : Json) :
  is_container c -> parse s (Some c) = parse (strip s) (Some c).
Proof.
  intros Hc.
  induction s; simpl; try reflexivity; destruct c; simpl in Hc;
    try contradiction; assumption.
Qed.

Lemma child_container (c : Json) (seg : Seg) (c' : Json) :
  child c seg = Some c' -> is_container c.
Proof. destruct c, seg; simpl; intros H; try discriminate; exact I. Qed.

(** ** Issues of a member are issues of the whole *)

Lemma combine_invalid_here {A : Type} (seg : Seg) (tag : Json -> A)
    (errs : list Issue) (rest : list Issue + list A) :
  exists errs',
    combine seg tag (Invalid errs) rest = inl errs' /\
    forall i, In i errs -> In (under seg i) errs'.
Proof.
  destruct rest as [errs0|out]; simpl; eexists; split; try reflexivity;
    intros i Hi.
  - apply in_or_app. left. now apply in_map.
  - now apply in_map.
Qed.

Lemma combine_invalid_later {A : Type} (seg : Seg) (tag : Json -> A)
    (r : ParseResult) (errs : list Issue) :
  exists errs',
    combine seg tag r (inl errs) = inl errs' /\
    forall i, In i errs -> In i errs'.
Proof.
  destruct r as [v|errs0]; simpl; eexists; split; try reflexivity;
    intros i Hi; [assumption|].
  apply in_or_app. now right.
Qed.

Lemma parse_members_invalid (kv : list (string * Json))
    (fs : list (string * Schema)) (k : string) (s : Schema)
    (errs : list Issue) :
  In (k, s) fs ->
  parse s (lookup k kv) = Invalid errs ->
  exists errs',
    parse_members kv fs = inl errs' /\
    forall i, In i errs -> In (under (Key k) i) errs'.
Proof.
  induction fs as [|[k0 s0] fs IH]; simpl; [contradiction|].
  intros [[= -> ->]|Hin] Hp.
  - rewrite Hp. apply combine_invalid_here.
  - destruct (IH Hin Hp) as (errs0 & -> & Hsub).
    destruct (combine_invalid_later (Key k0) (fun v => (k0, v))
                (parse s0 (lookup k0 kv)) errs0) as (errs' & -> & Hsub').
    exists errs'. split; [reflexivity|]. auto.
Qed.

Lemma parse_items_invalid (elem : Schema) (l : list Json) (i j : nat)
    (x : Json) (errs : list Issue) :
  nth_error l j = Some x ->
  parse elem (Some x) = Invalid errs ->
  exists errs',
    parse_items elem l i = inl errs' /\
    forall e, In e errs -> In (under (Index (i + j)) e) errs'.
Proof.
  revert i j. induction l as [|y l IH]; intros i j; simpl.
  - destruct j; discriminate.
  - destruct j as [|j]; simpl.
    + intros [= ->] Hp. rewrite Hp, Nat.add_0_r. apply combine_invalid_here.
    + intros Hn Hp.
      destruct (IH (S i) j Hn Hp) as (errs0 & -> & Hsub).
      destruct (combine_invalid_later (Index i) (fun v => v)
                  (parse elem (Some y)) errs0) as (errs' & -> & Hsub').
      exists errs'. split; [reflexivity|].
      intros e He. apply Hsub'. replace (i + S j) with (S i + j) by lia.
      now apply Hsub.
Qed.

(** An issue raised for the member [k] of the object at path [p] is an
    issue of the whole candidate, at the path extended by [p] and [k]. *)
Lemma issue_along_path (p : Path) :
  forall (s : Schema) (c : Json) (leaf : Schema) (k : string)
         (kv : list (string * Json)) (errs : list Issue) (i : Issue),
    schema_at s (p ++ [Key k]) = Some leaf ->
    get_path c p = Some (JObject kv) ->
    parse leaf (lookup k kv) = Invalid errs ->
    In i errs ->
    exists errs',
      parse s (Some c) = Invalid errs' /\
      In (mkIssue (p ++ Key k :: issue_path i) (issue_code i)) errs'.
Proof.
  induction p as [|seg p IH]; intros s c leaf k kv errs i; simpl.
  - intros Hs [= ->] Hp Hi.
    rewrite parse_strip by exact I.
    destruct (strip s) as [| | | | | |shape]; try discriminate.
    destruct (lookup k shape) as [s'|] eqn:Hk; [|discriminate].
    injection Hs as ->.
    destruct (parse_members_invalid kv shape k leaf errs (lookup_In _ _ _ Hk) Hp)
      as (errs' & Hm & Hsub).
    exists errs'. rewrite parse_object, Hm. split; [reflexivity|].
    exact (Hsub i Hi).
  - intros Hs Hg Hp Hi.
    destruct (child c seg) as [c'|] eqn:Hc; [|discriminate].
    rewrite parse_strip by exact (child_container _ _ _ Hc).
    destruct c as [| | | |l|kv0], seg as [k0|j]; simpl in Hc;
      try discriminate.
    + destruct (strip s) as [| | | | |elem|shape]; try discriminate.
      destruct (IH elem c' leaf k kv errs i Hs Hg Hp Hi)
        as (errs0 & Hp0 & Hin0).
      destruct (parse_items_invalid elem l 0 j c' errs0 Hc Hp0)
        as (errs' & Hm & Hsub).
      exists errs'. rewrite parse_array, Hm. split; [reflexivity|].
      exact (Hsub _ Hin0).
    + destruct (strip s) as [| | | | |elem|shape]; try discriminate.
      destruct (lookup k0 shape) as [s'|] eqn:Hk; [|discriminate].
      destruct (IH s' c' leaf k kv errs i Hs Hg Hp Hi)
        as (errs0 & Hp0 & Hin0).
      rewrite <- Hc in Hp0.
      destruct (parse_members_invalid kv0 shape k0 s' errs0 (lookup_In _ _ _ Hk) Hp0)
        as (errs' & Hm & Hsub).
      exists errs'. rewrite parse_object, Hm. split; [reflexivity|].
      exact (Hsub _ Hin0).
Qed.

(** ** The validated value along a path *)

Lemma combine_valid {A : Type} (seg : Seg) (tag : Json -> A)
    (r : ParseResult) (rest : list Issue + list A) (out : list A) :
  combine seg tag r rest = inr out ->
  exists v out', r = Valid v /\ rest = inr out' /\ out = tag v :: out'.
Proof.
  destruct r as [v|errs], rest as [errs0|out']; simpl; try discriminate.
  intros [= <-]. eauto.
Qed.

Lemma parse_members_valid (kv : list (string * Json))
    (fs : list (string * Schema)) (out : list (string * Json)) :
  parse_members kv fs = inr out ->
  forall k s, lookup k fs = Some s ->
    exists v, parse s (lookup k kv) = Valid v /\ lookup k out = Some v.
Proof.
  revert out. induction fs as [|[k0 s0] fs IH]; intros out; simpl.
  - discriminate.
  - intros H k s Hk.
    apply combine_valid in H as (v & out' & Hv & Hrest & ->). simpl.
    destruct (String.eqb_spec k k0) as [->|_].
    + injection Hk as <-. eauto.
    + exact (IH out' Hrest k s Hk).
Qed.

Lemma parse_items_valid (elem : Schema) (l : list Json) (i : nat)
    (out : list Json) :
  parse_items elem l i = inr out ->
  forall j x, nth_error l j = Some x ->
    exists v, parse elem (Some x) = Valid v /\ nth_error out j = Some v.
Proof.
  revert i out. induction l as [|y l IH]; intros i out; simpl.
  - intros _ [|j] x; discriminate.
  - intros H j x Hj.
    apply combine_valid in H as (v & out' & Hv & Hrest & ->).
    destruct j as [|j]; simpl in *.
    + injection Hj as <-. eauto.
    + exact (IH (S i) out' Hrest j x Hj).
Qed.

(** When the candidate is valid, the validated value holds at [p], [k]
    what the schema at that place makes of the candidate's member. *)
Lemma value_along_path (p : Path) :
  forall (s : Schema) (c : Json) (leaf : Schema) (k : string)
         (kv : list (string * Json)) (v : Json),
    schema_at s (p ++ [Key k]) = Some leaf ->
    get_path c p = Some (JObject kv) ->
    parse s (Some c) = Valid v ->
    exists v',
      parse leaf (lookup k kv) = Valid v' /\
      get_path v (p ++ [Key k]) = Some v'.
Proof.
  induction p as [|seg p IH]; intros s c leaf k kv v; simpl.
  - intros Hs [= ->]. rewrite parse_strip by exact I.
    destruct (strip s) as [| | | | | |shape]; try discriminate.
    destruct (lookup k shape) as [s'|] eqn:Hk; [|discriminate].
    injection Hs as ->. rewrite parse_object.
    intros H. apply finish_valid in H as (out & Hm & ->).
    destruct (parse_members_valid _ _ _ Hm k leaf Hk) as (v' & Hv & Hl).
    exists v'. simpl. now rewrite Hl.
  - intros Hs Hg.
    destruct (child c seg) as [c'|] eqn:Hc; [|discriminate].
    rewrite parse_strip by exact (child_container _ _ _ Hc).
    destruct c as [| | | |l|kv0], seg as [k0|j]; simpl in Hc;
      try discriminate.
    + destruct (strip s) as [| | | | |elem|shape]; try discriminate.
      rewrite parse_array. intros H.
      apply finish_valid in H as (out & Hm & ->).
      destruct (parse_items_valid _ _ _ _ Hm j c' Hc) as (v0 & Hv0 & Hn).
      destruct (IH elem c' leaf k kv v0 Hs Hg Hv0) as (v' & Hv' & Hg').
      exists v'. simpl. now rewrite Hn.
    + destruct (strip s) as [| | | | |elem|shape]; try discriminate.
      destruct (lookup k0 shape) as [s'|] eqn:Hk; [|discriminate].
      rewrite parse_object. intros H.
      apply finish_valid in H as (out & Hm & ->).
      destruct (parse_members_valid _ _ _ Hm k0 s' Hk) as (v0 & Hv0 & Hl).
      rewrite Hc in Hv0.
      destruct (IH s' c' leaf k kv v0 Hs Hg Hv0) as (v' & Hv' & Hg').
      exists v'. simpl. now rewrite Hl.
Qed.

(** ** Where an issue comes from *)

Lemma combine_issue {A : Type} (seg : Seg) (tag : Json -> A)
    (r : ParseResult) (rest : list Issue + list A) (errs' : list Issue)
    (i : Issue) :
  combine seg tag r rest = inl errs' -> In i errs' ->
  (exists errs i0, r = Invalid errs /\ In i0 errs /\ i = under seg i0) \/
  (exists errs0, rest = inl errs0 /\ In i errs0).
Proof.
  destruct r as [v|errs], rest as [errs0|out]; simpl; try discriminate;
    intros [= <-] Hi.
  - right. eauto.
  - apply in_app_or in Hi as [Hi|Hi].
    + apply in_map_iff in Hi as (i0 & <- & Hi0). left. eauto.
    + right. eauto.
  - apply in_map_iff in Hi as (i0 & <- & Hi0). left. eauto.
Qed.

Lemma parse_members_issue (kv : list (string * Json))
    (fs : list (string * Schema)) (errs' : list Issue) (i : Issue) :
  parse_members kv fs = inl errs' -> In i errs' ->
  exists k s errs i0,
    In (k, s) fs /\ parse s (lookup k kv) = Invalid errs /\
    In i0 errs /\ i = under (Key k) i0.
Proof.
  revert errs'. induction fs as [|[k0 s0] fs IH]; intros errs'; simpl.
  - discriminate.
  - intros H Hi.
    destruct (combine_issue _ _ _ _ _ _ H Hi)
      as [(errs & i0 & Hr & Hi0 & ->)|(errs0 & Hrest & Hi0)].
    + exists k0, s0, errs, i0. auto.
    + destruct (IH errs0 Hrest Hi0) as (k & s & errs & i0 & Hin & Hrest').
      exists k, s, errs, i0. split; [now right | exact Hrest'].
Qed.

Lemma lookup_not_In {A : Type} (k : string) (kv : list (string * A)) (v : A) :
  lookup k kv = None -> ~ In (k, v) kv.
Proof.
  induction kv as [|[k' v'] rest IH]; simpl; [tauto|].
  destruct (String.eqb_spec k k') as [->|Hne]; [discriminate|].
  intros Hl [[= -> ->]|Hin]; [now apply Hne | now apply IH].
Qed.

Lemma distinct_lookup {A : Type} (kv : list (string * A)) (k : string)
    (v : A) :
  distinct_keys kv = true -> In (k, v) kv -> lookup k kv = Some v.
Proof.
  induction kv as [|[k' v'] rest IH]; simpl; [contradiction|].
  destruct (lookup k' rest) eqn:Hk'; [discriminate|].
  intros Hd [[= -> ->]|Hin].
  - now rewrite String.eqb_refl.
  - destruct (String.eqb_spec k k') as [->|_].
    + now apply lookup_not_In with (v := v) in Hk'.
    + now apply IH.
Qed.

(** An issue of an object whose path starts with the key [k] was raised
    by the schema of the member [k], below that member. *)
Lemma object_issue_origin (shape : list (string * Schema))
    (kv : list (string * Json)) (errs' : list Issue) (i : Issue)
    (k : string) (q : Path) :
  distinct_keys shape = true ->
  parse (SObject shape) (Some (JObject kv)) = Invalid errs' ->
  In i errs' ->
  issue_path i = Key k :: q ->
  exists s errs i0,
    lookup k shape = Some s /\ parse s (lookup k kv) = Invalid errs /\
    In i0 errs /\ issue_path i0 = q /\ issue_code i0 = issue_code i.
Proof.
  intros Hd Hp Hi Hpath. rewrite parse_object in Hp.
  apply finish_invalid in Hp.
  destruct (parse_members_issue _ _ _ _ Hp Hi)
    as (k0 & s & errs & i0 & Hin & Hr & Hi0 & ->).
  simpl in Hpath. injection Hpath as -> <-.
  exists s, errs, i0. repeat split; auto using distinct_lookup.
Qed.

(** ** The Schema Validator *)

Lemma validate_non_null (c : Json) :
  is_container c -> validate c = parse AcordSchema (Some c).
Proof. destruct c; simpl; intros H; try contradiction; reflexivity. Qed.

(** C2, as the code has it.  For a candidate whose object at path [p] has
    no key [k]: where the schema expects a list with [.default([])]
    (insurers, policies, coverages of a policy), the member parses to the
    empty list and the validated value holds the empty list there; where
    the schema expects a nullable string (revision_number, naic_code,
    fax_number and the like), validation fails with an [invalid_type]
    issue at that member.  A nullable string that is present with the
    value null is accepted and stays null. *)
Theorem missing_members (c : Json) (p : Path) (k : string)
    (kv : list (string * Json)) :
  get_path c p = Some (JObject kv) ->
  (forall elem,
      schema_at response_schema (p ++ [Key k])
        = Some (SDefault (SArray elem) (JArray [])) ->
      lookup k kv = None ->
      parse (SDefault (SArray elem) (JArray [])) (lookup k kv)
        = Valid (JArray []) /\
      forall v, validate c = Valid v ->
                get_path v (p ++ [Key k]) = Some (JArray []))
  /\ (schema_at response_schema (p ++ [Key k]) = Some (SNullable SString) ->
      (lookup k kv = Some JNull ->
       forall v, validate c = Valid v ->
                 get_path v (p ++ [Key k]) = Some JNull)
      /\ (lookup k kv = None ->
          exists errs,
            validate c = Invalid errs /\
            In (mkIssue (p ++ [Key k]) invalid_type) errs))
  /\ (forall j,
      schema_at response_schema [Key "insurers"]
        = Some (SDefault (SArray insurer_schema) (JArray [])) /\
      schema_at response_schema [Key "policies"]
        = Some (SDefault (SArray policy_schema) (JArray [])) /\
      schema_at response_schema [Key "policies"; Index j; Key "coverages"]
        = Some (SDefault (SArray coverage_schema) (JArray [])) /\
      schema_at response_schema
        [Key "certificate_information"; Key "revision_number"]
        = Some (SNullable SString) /\
      schema_at response_schema [Key "insurers"; Index j; Key "naic_code"]
        = Some (SNullable SString) /\
      schema_at response_schema
        [Key "producer_information"; Key "contact_information";
         Key "fax_number"]
        = Some (SNullable SString)).
Proof.
  intros Hg. split; [|split].
  - intros elem Hs Hk. rewrite Hk. split; [reflexivity|].
    intros v Hv. unfold validate in Hv.
    destruct (value_along_path p _ _ _ _ _ _ Hs Hg Hv) as (v' & Hv' & Hg').
    rewrite Hk in Hv'. simpl in Hv'. now injection Hv' as <-.
  - intros Hs. split.
    + intros Hk v Hv. unfold validate in Hv.
      destruct (value_along_path p _ _ _ _ _ _ Hs Hg Hv) as (v' & Hv' & Hg').
      rewrite Hk in Hv'. simpl in Hv'. now injection Hv' as <-.
    + intros Hk.
      assert (Hp : parse (SNullable SString) (lookup k kv)
                   = Invalid [mkIssue [] invalid_type])
        by now rewrite Hk.
      destruct (issue_along_path p _ _ _ _ _ _ _ Hs Hg Hp (or_introl eq_refl))
        as (errs & Hv & Hin).
      exists errs. split; assumption.
  - intros j. repeat split.
Qed.

Lemma missing_members_witness :
  (exists v,
     validate Sample.without_lists = Valid v /\
     get_path v [Key "insurers"] = Some (JArray []) /\
     get_path v [Key "policies"; Index 0; Key "coverages"]
     = Some (JArray []))
  /\ (exists errs,
        validate Sample.without_revision = Invalid errs /\
        In (mkIssue [Key "certificate_information"; Key "revision_number"]
              invalid_type) errs).
Proof.
  split.
  - eexists. split; [reflexivity|]. split.
    + refine (proj2 (proj1 (missing_members Sample.without_lists
                              [] "insurers" _ eq_refl)
                       insurer_schema eq_refl eq_refl) _ eq_refl).
    + refine (proj2 (proj1 (missing_members Sample.without_lists
                              [Key "policies"; Index 0] "coverages" _ eq_refl)
                       coverage_schema eq_refl eq_refl) _ eq_refl).
  - refine (proj2 (proj1 (proj2 (missing_members Sample.without_revision
                                   [Key "certificate_information"]
                                   "revision_number" _ eq_refl))
                     eq_refl) eq_refl).
Defined.

(** C2 as stated fails: the candidate that is complete but for the key
    [revision_number] is rejected, while the same candidate with
    [revision_number: null] is accepted. *)
Lemma absent_nullable_rejected :
  get_path Sample.without_revision
    [Key "certificate_information"; Key "revision_number"] = None
  /\ validate Sample.without_revision
     = Invalid [mkIssue [Key "certificate_information"; Key "revision_number"]
                  invalid_type]
  /\ (forall v, validate Sample.without_revision = Valid v ->
                get_path v [Key "certificate_information";
                            Key "revision_number"] <> Some JNull)
  /\ exists v, validate Sample.complete = Valid v.
Proof.
  split; [reflexivity|]. split; [reflexivity|]. split.
  - intros v H. discriminate H.
  - eexists. reflexivity.
Qed.

(** One step down from an issue of an object to the issue of the member
    its path starts with. *)
Ltac descend H Hi Hpath H' Hi' Hpath' :=
  match type of H with
  | parse (SObject ?shape) (Some (JObject ?kv)) = Invalid ?errs =>
      let s := fresh "s" in
      let errs' := fresh "errs" in
      let i' := fresh "i" in
      let Hs := fresh "Hs" in
      destruct (object_issue_origin shape kv errs _ _ _ eq_refl H Hi Hpath)
        as (s & errs' & i' & Hs & H' & Hi' & Hpath' & _);
      simpl in Hs; injection Hs as <-
  end.

(** C9.  A candidate whose [country] under [address_details] is a value
    other than the literal 'USA' fails validation, with an
    [invalid_literal] issue at that field; when the value is 'USA', no
    issue of the validation lies at that field.  (A candidate with a
    value at that path is an object, hence not null.) *)
Theorem country_literal (c v : Json) :
  get_path c country_path = Some v ->
  (v <> JString "USA" ->
   exists errs,
     validate c = Invalid errs /\
     In (mkIssue country_path invalid_literal) errs)
  /\ (v = JString "USA" ->
      forall errs i,
        validate c = Invalid errs -> In i errs ->
        issue_path i <> country_path).
Proof.
  intros Hg. split.
  - intros Hv.
    change country_path
      with ([Key "producer_information"; Key "address_details"]
              ++ [Key "country"]) in Hg.
    apply get_path_member in Hg as (kv & Hg & Hk).
    assert (Hp : parse (SLiteral "USA") (lookup "country" kv)
                 = Invalid [mkIssue [] invalid_literal]).
    { rewrite Hk. destruct v as [| | |x| |]; try reflexivity. simpl.
      destruct (String.eqb_spec x "USA") as [->|_]; [now elim Hv|reflexivity]. }
    destruct (issue_along_path
                [Key "producer_information"; Key "address_details"]
                response_schema c (SLiteral "USA") "country" kv _ _
                eq_refl Hg Hp (or_introl eq_refl)) as (errs & He & Hin).
    exists errs. split; assumption.
  - intros -> errs i Hv Hi Hpath.
    unfold country_path in *. simpl in Hg.
    destruct c as [| | | | |kv]; try discriminate. simpl in Hg.
    destruct (lookup "producer_information" kv) as [c1|] eqn:H1;
      [|discriminate].
    destruct c1 as [| | | | |kv1]; try discriminate. simpl in Hg.
    destruct (lookup "address_details" kv1) as [c2|] eqn:H2;
      [|discriminate].
    destruct c2 as [| | | | |kv2]; try discriminate. simpl in Hg.
    destruct (lookup "country" kv2) as [c3|] eqn:H3; [|discriminate].
    injection Hg as ->.
    rewrite validate_non_null in Hv by exact I.
    unfold AcordSchema in Hv.
    descend Hv Hi Hpath Hp1 Hi1 Hpath1. rewrite H1 in Hp1.
    unfold producer_information_schema in Hp1.
    descend Hp1 Hi1 Hpath1 Hp2 Hi2 Hpath2. rewrite H2 in Hp2.
    unfold address_details_schema in Hp2.
    descend Hp2 Hi2 Hpath2 Hp3 Hi3 Hpath3. rewrite H3 in Hp3.
    discriminate Hp3.
Qed.

Lemma country_literal_witness :
  (exists errs,
     validate Sample.canadian = Invalid errs /\
     In (mkIssue country_path invalid_literal) errs)
  /\ (forall errs i,
        validate Sample.complete = Invalid errs -> In i errs ->
        issue_path i <> country_path).
Proof.
  split.
  - apply (proj1 (country_literal Sample.canadian (JString "Canada")
                    eq_refl)).
    discriminate.
  - apply (proj2 (country_literal Sample.complete (JString "USA") eq_refl)).
    reflexivity.
Defined.

(** ** What a validated value looks like *)

Lemma wf_object (shape : list (string * Schema)) :
  wf_schema (SObject shape) = distinct_keys shape && wf_members shape.
Proof.
  reflexivity.
Qed.

Lemma wf_members_In (fs : list (string * Schema)) (k : string) (s : Schema) :
  wf_members fs = true -> In (k, s) fs -> wf_schema s = true.
Proof.
  induction fs as [|[k0 s0] fs IH]; simpl; [contradiction|].
  intros H [[= -> ->]|Hin]; apply andb_true_iff in H as [H0 H1]; auto.
Qed.

Lemma parse_items_again (elem : Schema) (l : list Json) :
  (forall i v, parse elem i = Valid v -> parse elem (Some v) = Valid v) ->
  forall i out j,
    parse_items elem l i = inr out -> parse_items elem out j = inr out.
Proof.
  intros Hid. induction l as [|x l IH]; intros i out j; simpl.
  - intros [= <-]. reflexivity.
  - intros H. apply combine_valid in H as (v & out' & Hv & Hrest & ->).
    simpl. rewrite (Hid _ _ Hv), (IH _ _ (S j) Hrest). reflexivity.
Qed.

Lemma parse_members_again (kv whole : list (string * Json))
    (fs : list (string * Schema)) :
  (forall k s v, In (k, s) fs -> parse s (lookup k kv) = Valid v ->
                 parse s (lookup k whole) = Valid v) ->
  forall out, parse_members kv fs = inr out -> parse_members whole fs = inr out.
Proof.
  induction fs as [|[k0 s0] fs IH]; intros Hre out; simpl.
  - trivial.
  - intros H. apply combine_valid in H as (v & out' & Hv & Hrest & ->).
    rewrite (Hre k0 s0 v (or_introl eq_refl) Hv).
    rewrite (IH (fun k s v' Hin => Hre k s v' (or_intror Hin)) out' Hrest).
    reflexivity.
Qed.

(** A validated value passes the schema again, unchanged. *)
Lemma parse_idempotent (s : Schema) :
  wf_schema s = true ->
  forall i v, parse s i = Valid v -> parse s (Some v) = Valid v.
Proof.
  induction s as [| |lit|inner IH|inner dflt IH|elem IH|shape IH]
    using schema_induction; intros Hwf i v.
  - destruct i as [[]|]; simpl; try discriminate. now intros [= <-].
  - destruct i as [[]|]; simpl; try discriminate. now intros [= <-].
  - destruct i as [[| | |x| |]|]; simpl; try discriminate.
    destruct (String.eqb x lit) eqn:E; [|discriminate].
    intros [= <-]. simpl. now rewrite E.
  - simpl in Hwf. intros H.
    assert (Hv : v = JNull \/ parse inner (Some v) = Valid v).
    { destruct i as [[]|]; simpl in H;
        try (right; exact (IH Hwf _ _ H)).
      left. now injection H as <-. }
    destruct Hv as [->|Hv]; [reflexivity|].
    simpl. destruct v; try exact Hv. reflexivity.
  - simpl in Hwf. intros H.
    assert (Hv : parse inner (Some v) = Valid v)
      by (destruct i; simpl in H; exact (IH Hwf _ _ H)).
    exact Hv.
  - simpl in Hwf. destruct i as [[| | | |items|]|]; try discriminate.
    rewrite parse_array. intros H.
    apply finish_valid in H as (out & Hm & ->).
    rewrite parse_array.
    now rewrite (parse_items_again elem items (IH Hwf) 0 out 0 Hm).
  - rewrite wf_object in Hwf. apply andb_true_iff in Hwf as [Hd Hw].
    destruct i as [[| | | | |kv]|]; try discriminate.
    rewrite parse_object. intros H.
    apply finish_valid in H as (out & Hm & ->).
    rewrite parse_object.
    rewrite (fun Hre => parse_members_again kv out shape Hre out Hm);
      [reflexivity|].
    intros k s v Hin Hv.
    destruct (parse_members_valid kv shape out Hm k s
                (distinct_lookup shape k s Hd Hin)) as (v' & Hv' & Hl).
    rewrite Hv in Hv'. injection Hv' as <-. rewrite Hl.
    rewrite Forall_forall in IH.
    exact (IH (k, s) Hin (wf_members_In shape k s Hw Hin) _ _ Hv).
Qed.

Lemma parse_members_keys (kv : list (string * Json))
    (fs : list (string * Schema)) (out : list (string * Json)) :
  parse_members kv fs = inr out -> map fst out = map fst fs.
Proof.
  revert out. induction fs as [|[k s] fs IH]; intros out; simpl.
  - now intros [= <-].
  - intros H. apply combine_valid in H as (v & out' & _ & Hrest & ->).
    simpl. now rewrite (IH out' Hrest).
Qed.

Lemma parse_object_input (shape : list (string * Schema)) (i : option Json)
    (v : Json) :
  parse (SObject shape) i = Valid v ->
  exists kv out,
    i = Some (JObject kv) /\ v = JObject out /\
    parse_members kv shape = inr out.
Proof.
  destruct i as [[| | | | |kv]|]; try discriminate.
  rewrite parse_object. intros H.
  apply finish_valid in H as (out & Hm & ->). eauto.
Qed.

(** X4.  A value the validator has accepted is accepted again and comes
    back unchanged: validation is idempotent. *)
Theorem validate_idempotent (c v : Json) :
  validate c = Valid v -> validate v = Valid v.
Proof. exact (parse_idempotent response_schema eq_refl (Some c) v). Qed.

Lemma validate_idempotent_witness :
  exists v,
    validate Sample.without_lists = Valid v /\ validate v = Valid v.
Proof.
  eexists. split; [reflexivity|].
  apply (validate_idempotent Sample.without_lists). reflexivity.
Defined.

(** X5.  The validator returns null only for the candidate null.  Any
    other accepted candidate is an object, and what comes back is an
    object with exactly the four keys of the schema, in the order of the
    schema: keys the schema does not declare are dropped. *)
Theorem validated_keys (c v : Json) :
  validate c = Valid v ->
  (c = JNull /\ v = JNull) \/
  (exists kv out,
      c = JObject kv /\ v = JObject out /\
      map fst out =
      ["certificate_information"; "insurers"; "policies";
       "producer_information"]).
Proof.
  destruct c as [| | | | |kv]; try discriminate.
  - intros [= <-]. now left.
  - rewrite validate_non_null by exact I. intros H.
    apply parse_object_input in H as (kv' & out & [= <-] & -> & Hm).
    right. exists kv, out. repeat split.
    exact (parse_members_keys _ _ _ Hm).
Qed.

Lemma validated_keys_witness :
  exists kv out,
    JObject (("note", JString "extra") ::
             match Sample.complete with
             | JObject kv => kv
             | _ => []
             end) = JObject kv /\
    Sample.complete = JObject out /\
    map fst out =
    ["certificate_information"; "insurers"; "policies";
     "producer_information"].
Proof.
  destruct (validated_keys
              (JObject (("note", JString "extra") ::
                        match Sample.complete with
                        | JObject kv => kv
                        | _ => []
                        end))
              Sample.complete eq_refl) as [[H _]|H].
  - discriminate H.
  - exact H.
Defined.

Lemma get_path_app (c : Json) (p q : Path) :
  get_path c (p ++ q) =
  match get_path c p with
  | Some c' => get_path c' q
  | None => None
  end.
Proof.
  revert c. induction p as [|seg p IH]; intros c; simpl; [reflexivity|].
  destruct (child c seg); [apply IH | reflexivity].
Qed.

(** X6.  Every validated value other than null carries the country
    'USA' under [producer_information.address_details]. *)
Theorem validated_country (c v : Json) :
  validate c = Valid v ->
  v <> JNull ->
  get_path v country_path = Some (JString "USA").
Proof.
  intros Hv Hn.
  destruct c as [| | | | |kv]; try discriminate.
  { injection Hv as <-. now elim Hn. }
  rewrite validate_non_null in Hv by exact I.
  destruct (value_along_path [] AcordSchema (JObject kv)
              producer_information_schema "producer_information" kv v
              eq_refl eq_refl Hv) as (v1 & Hp1 & Hg1).
  apply parse_object_input in Hp1 as Hin1.
  destruct Hin1 as (kv1 & out1 & Hl1 & -> & _). rewrite Hl1 in Hp1.
  destruct (value_along_path [] producer_information_schema (JObject kv1)
              address_details_schema "address_details" kv1 (JObject out1)
              eq_refl eq_refl Hp1) as (v2 & Hp2 & Hg2).
  apply parse_object_input in Hp2 as Hin2.
  destruct Hin2 as (kv2 & out2 & Hl2 & -> & _). rewrite Hl2 in Hp2.
  destruct (value_along_path [] address_details_schema (JObject kv2)
              (SLiteral "USA") "country" kv2 (JObject out2)
              eq_refl eq_refl Hp2) as (v3 & Hp3 & Hg3).
  assert (v3 = JString "USA") as ->.
  { revert Hp3. simpl.
    destruct (lookup "country" kv2) as [[| | |x| |]|]; try discriminate.
    destruct (String.eqb_spec x "USA") as [->|_]; [|discriminate].
    now intros [= <-]. }
  change country_path
    with ([Key "producer_information"]
            ++ [Key "address_details"] ++ [Key "country"]).
  rewrite get_path_app.
  rewrite (Hg1 : get_path v [Key "producer_information"] = Some _).
  rewrite get_path_app.
  rewrite (Hg2 : get_path _ [Key "address_details"] = Some _).
  exact Hg3.
Qed.

Lemma validated_country_witness :
  get_path Sample.complete country_path = Some (JString "USA").
Proof.
  apply (validated_country Sample.complete Sample.complete).
  - reflexivity.
  - discriminate.
Defined.

(** X7.  A candidate other than null is accepted only if it is an object
    whose [certificate_information] and [producer_information] are
    present and are objects; [insurers] and [policies], when present,
    must be arrays. *)
Theorem required_groups (c v : Json) :
  validate c = Valid v ->
  c <> JNull ->
  exists kv ci pi,
    c = JObject kv /\
    lookup "certificate_information" kv = Some (JObject ci) /\
    lookup "producer_information" kv = Some (JObject pi) /\
    (lookup "insurers" kv = None \/
     exists l, lookup "insurers" kv = Some (JArray l)) /\
    (lookup "policies" kv = None \/
     exists l, lookup "policies" kv = Some (JArray l)).
Proof.
  intros Hv Hn.
  destruct c as [| | | | |kv]; try discriminate; [now elim Hn|].
  rewrite validate_non_null in Hv by exact I.
  apply parse_object_input in Hv as (kv' & out & [= <-] & -> & Hm).
  destruct (parse_members_valid _ _ _ Hm "certificate_information" _ eq_refl)
    as (v1 & H1 & _).
  destruct (parse_members_valid _ _ _ Hm "producer_information" _ eq_refl)
    as (v2 & H2 & _).
  destruct (parse_members_valid _ _ _ Hm "insurers" _ eq_refl)
    as (v3 & H3 & _).
  destruct (parse_members_valid _ _ _ Hm "policies" _ eq_refl)
    as (v4 & H4 & _).
  apply parse_object_input in H1 as (ci & _ & H1 & _).
  apply parse_object_input in H2 as (pi & _ & H2 & _).
  exists kv, ci, pi. repeat split; try assumption.
  - destruct (lookup "insurers" kv) as [[| | | |l|]|]; try discriminate;
      eauto.
  - destruct (lookup "policies" kv) as [[| | | |l|]|]; try discriminate;
      eauto.
Qed.

Lemma required_groups_witness :
  exists kv ci pi,
    Sample.without_lists = JObject kv /\
    lookup "certificate_information" kv = Some (JObject ci) /\
    lookup "producer_information" kv = Some (JObject pi) /\
    (lookup "insurers" kv = None \/
     exists l, lookup "insurers" kv = Some (JArray l)) /\
    (lookup "policies" kv = None \/
     exists l, lookup "policies" kv = Some (JArray l)).
Proof.
  eapply (required_groups Sample.without_lists).
  - reflexivity.
  - discriminate.
Defined.

(** X19.  A member the schema requires to be a string, or to be a number,
    makes the whole candidate fail when it is absent or of another type,
    null included; the failure is reported as [invalid_type] at the path
    of that member. *)
Theorem required_leaf_rejected (c : Json) (p : Path) (k : string)
    (kv : list (string * Json)) :
  get_path c p = Some (JObject kv) ->
  (schema_at response_schema (p ++ [Key k]) = Some SString ->
   (forall x, lookup k kv <> Some (JString x)) ->
   exists errs,
     validate c = Invalid errs /\
     In (mkIssue (p ++ [Key k]) invalid_type) errs)
  /\ (schema_at response_schema (p ++ [Key k]) = Some SNumber ->
      (forall q, lookup k kv <> Some (JNumber q)) ->
      exists errs,
        validate c = Invalid errs /\
        In (mkIssue (p ++ [Key k]) invalid_type) errs).
Proof.
  intros Hg. split; intros Hs Hno.
  - assert (Hp : parse SString (lookup k kv)
                 = Invalid [mkIssue [] invalid_type]).
    { destruct (lookup k kv) as [[| | |x| |]|]; try reflexivity.
      now elim (Hno x). }
    destruct (issue_along_path p _ _ _ _ _ _ _ Hs Hg Hp (or_introl eq_refl))
      as (errs & Hv & Hin).
    exists errs. split; assumption.
  - assert (Hp : parse SNumber (lookup k kv)
                 = Invalid [mkIssue [] invalid_type]).
    { destruct (lookup k kv) as [[| |q| | |]|]; try reflexivity.
      now elim (Hno q). }
    destruct (issue_along_path p _ _ _ _ _ _ _ Hs Hg Hp (or_introl eq_refl))
      as (errs & Hv & Hin).
    exists errs. split; assumption.
Qed.

Lemma required_leaf_rejected_witness :
  (exists v, validate (Scenario.priced (JNumber 1000000)) = Valid v)
  /\ exists errs,
       validate (Scenario.priced (JString "$1,000,000")) = Invalid errs /\
       In (mkIssue
             [Key "policies"; Index 0; Key "coverages"; Index 0;
              Key "limit_value"] invalid_type) errs.
Proof.
  split; [eexists; reflexivity|].
  refine (proj2 (required_leaf_rejected
                   (Scenario.priced (JString "$1,000,000"))
                   [Key "policies"; Index 0; Key "coverages"; Index 0]
                   "limit_value" _ eq_refl) eq_refl _).
  intros q. discriminate.
Defined.

(** ** Strings *)

Lemma prefix_app (needle rest : string) :
  String.prefix needle (needle ++ rest)%string = true.
Proof.
  induction needle as [|a needle IH]; simpl; [now destruct rest|].
  destruct (ascii_dec a a) as [_|Hne]; [exact IH | now elim Hne].
Qed.

Lemma includes_eq (s needle : string) :
  includes s needle =
  if String.prefix needle s then true
  else match s with
       | EmptyString => false
       | String _ s' => includes s' needle
       end.
Proof. destruct s; reflexivity. Qed.

Lemma includes_app (before needle rest : string) :
  includes (before ++ needle ++ rest)%string needle = true.
Proof.
  induction before as [|a before IH]; rewrite includes_eq.
  - simpl. now rewrite prefix_app.
  - change ((String a before ++ needle ++ rest)%string)
      with (String a (before ++ needle ++ rest)).
    cbv iota. rewrite IH. now destruct (String.prefix needle _).
Qed.

(** ** The retry loop *)

Section HandlerProperties.

Variable Page : Type.
Variable pdf_load : list byte -> Outcome (list Page).
Variable pdf_save : list Page -> list byte.
Variable copy_fault : Thrown.
Variable model : nat -> list byte -> ModelReply.
Variable no_object : list Issue -> Thrown.
Variable GEMINI_API_KEY : option string.

#[local] Abbreviation generate := (generateObject model no_object response_schema).
#[local] Abbreviation loop := (retry model no_object).
#[local] Abbreviation call := (callGeminiUsingAiSdk model no_object GEMINI_API_KEY).
#[local] Abbreviation truncate :=
  (truncatePDFToFivePagesBuffer Page pdf_load pdf_save copy_fault).
#[local] Abbreviation post :=
  (POST Page pdf_load pdf_save copy_fault model no_object GEMINI_API_KEY).
#[local] Abbreviation submit :=
  (handleSubmit Page pdf_load pdf_save copy_fault model no_object
     GEMINI_API_KEY).

Lemma generate_world (pdfBytes : list byte) (w : World) :
  snd (generate pdfBytes w) = after w [ModelCall pdfBytes] 1.
Proof.
  unfold generateObject, after. rewrite Nat.add_1_r.
  destruct (model (served w) pdfBytes) as [e|c]; [reflexivity|].
  destruct (parse response_schema (Some c)); reflexivity.
Qed.

Lemma generate_run (pdfBytes : list byte) (w : World) :
  generate pdfBytes w =
  (fst (generate pdfBytes w), after w [ModelCall pdfBytes] 1).
Proof. rewrite <- generate_world. now destruct (generate pdfBytes w). Qed.

Lemma retry_step (pdfBytes : list byte) (attempt : nat)
    (lastError : option Thrown) (w : World) :
  loop pdfBytes attempt lastError w =
  if attempt <? MAX_RETRIES then
    try_catch (generate pdfBytes)
      (fun err =>
         (if attempt + 1 <? MAX_RETRIES
          then emit (Sleep (delayMs (attempt + 1)))
          else ret tt) ;;
         loop pdfBytes (attempt + 1) (Some err)) w
  else throw (exhausted lastError) w.
Proof.
  simp retry.
  destruct (lt_dec attempt MAX_RETRIES) as [H|H]; simpl.
  - apply Nat.ltb_lt in H. now rewrite H.
  - apply Nat.ltb_nlt in H. now rewrite H.
Qed.

(** An attempt that returns ends the loop with its value. *)
Lemma retry_returns (pdfBytes : list byte) (attempt : nat)
    (lastError : option Thrown) (w : World) (object : Json) :
  attempt < MAX_RETRIES ->
  fst (generate pdfBytes w) = Returned object ->
  loop pdfBytes attempt lastError w =
  (Returned object, after w [ModelCall pdfBytes] 1).
Proof.
  intros Ha Hg. rewrite retry_step.
  apply Nat.ltb_lt in Ha. rewrite Ha.
  unfold try_catch. rewrite generate_run, Hg. reflexivity.
Qed.

(** An attempt that throws is followed by the wait, if another attempt
    is left, and by the rest of the loop. *)
Lemma retry_throws (pdfBytes : list byte) (attempt : nat)
    (lastError : option Thrown) (w : World) (e : Thrown) :
  attempt < MAX_RETRIES ->
  fst (generate pdfBytes w) = Threw e ->
  loop pdfBytes attempt lastError w =
  loop pdfBytes (attempt + 1) (Some e)
    (if attempt + 1 <? MAX_RETRIES
     then after w [ModelCall pdfBytes; Sleep (delayMs (attempt + 1))] 1
     else after w [ModelCall pdfBytes] 1).
Proof.
  intros Ha Hg. rewrite retry_step.
  apply Nat.ltb_lt in Ha. rewrite Ha.
  unfold try_catch. rewrite generate_run, Hg.
  unfold bind, after.
  destruct (attempt + 1 <? MAX_RETRIES); simpl.
  - now rewrite <- app_assoc.
  - reflexivity.
Qed.

(** The loop returns only what some attempt returned. *)
Lemma retry_returned (pdfBytes : list byte) (n attempt : nat) :
  forall (lastError : option Thrown) (w w' : World) (object : Json),
    MAX_RETRIES - attempt <= n ->
    loop pdfBytes attempt lastError w = (Returned object, w') ->
    exists w0, fst (generate pdfBytes w0) = Returned object.
Proof.
  revert attempt.
  induction n as [|n IH]; intros attempt lastError w w' object Hn;
    rewrite retry_step;
    destruct (attempt <? MAX_RETRIES) eqn:Ha; try discriminate.
  - apply Nat.ltb_lt in Ha. lia.
  - unfold try_catch. rewrite generate_run.
    destruct (fst (generate pdfBytes w)) as [e|v] eqn:Hg.
    + unfold bind at 1.
      destruct ((if attempt + 1 <? MAX_RETRIES
                 then emit (Sleep (delayMs (attempt + 1)))
                 else ret tt) _) as [[e0|[]] w1] eqn:Hs.
      * destruct (attempt + 1 <? MAX_RETRIES); discriminate Hs.
      * apply IH. lia.
    + intros [= <- <-]. eauto.
Qed.

Lemma call_returned (pdfBytes : list byte) (w w' : World) (object : Json) :
  call pdfBytes w = (Returned object, w') ->
  key_missing GEMINI_API_KEY = false /\
  exists w0, fst (generate pdfBytes w0) = Returned object.
Proof.
  unfold callGeminiUsingAiSdk.
  destruct (key_missing GEMINI_API_KEY); [discriminate|].
  intros H. split; [reflexivity|].
  exact (retry_returned pdfBytes MAX_RETRIES 0 None w w' object
           (Nat.le_refl _) H).
Qed.

Lemma generate_fails (pdfBytes : list byte) (w : World) :
  reply_fails (model (served w) pdfBytes) ->
  exists e, fst (generate pdfBytes w) = Threw e.
Proof.
  unfold generateObject, reply_fails, validate.
  destruct (model (served w) pdfBytes) as [e|c].
  - intros _. now exists e.
  - intros (issues & Hi). rewrite Hi. now exists (no_object issues).
Qed.

Lemma generate_returned (pdfBytes : list byte) (w : World) (object : Json) :
  fst (generate pdfBytes w) = Returned object ->
  ~ reply_fails (model (served w) pdfBytes).
Proof.
  intros H Hf. apply generate_fails in Hf as (e & He). congruence.
Qed.

(** When the three attempts fail, the loop makes them all, waits 2 s and
    4 s between them, and throws the error that names the count. *)
Lemma call_exhausted (pdfBytes : list byte) (w : World) :
  key_missing GEMINI_API_KEY = false ->
  (forall k, k < MAX_RETRIES ->
             reply_fails (model (served w + k) pdfBytes)) ->
  exists e,
    call pdfBytes w =
    (Threw (exhausted (Some e)),
     after w [ModelCall pdfBytes; Sleep 2000;
              ModelCall pdfBytes; Sleep 4000;
              ModelCall pdfBytes] 3).
Proof.
  intros Hk Hf. unfold callGeminiUsingAiSdk. rewrite Hk.
  assert (H0 : 0 < MAX_RETRIES) by (unfold MAX_RETRIES; lia).
  assert (H1 : 1 < MAX_RETRIES) by (unfold MAX_RETRIES; lia).
  assert (H2 : 2 < MAX_RETRIES) by (unfold MAX_RETRIES; lia).
  destruct (generate_fails pdfBytes w) as (e1 & E1).
  { specialize (Hf 0 H0). now rewrite Nat.add_0_r in Hf. }
  rewrite (retry_throws pdfBytes 0 None w e1 H0 E1).
  change (0 + 1 <? MAX_RETRIES) with true. cbv iota.
  change (0 + 1) with 1.
  destruct (generate_fails pdfBytes
              (after w [ModelCall pdfBytes; Sleep (delayMs 1)] 1))
    as (e2 & E2).
  { exact (Hf 1 H1). }
  rewrite (retry_throws pdfBytes 1 _ _ e2 H1 E2).
  change (1 + 1 <? MAX_RETRIES) with true. cbv iota.
  change (1 + 1) with 2.
  destruct (generate_fails pdfBytes
              (after (after w [ModelCall pdfBytes; Sleep (delayMs 1)] 1)
                 [ModelCall pdfBytes; Sleep (delayMs 2)] 1))
    as (e3 & E3).
  { simpl. rewrite <- Nat.add_assoc. exact (Hf 2 H2). }
  rewrite (retry_throws pdfBytes 2 _ _ e3 H2 E3).
  change (2 + 1 <? MAX_RETRIES) with false. cbv iota.
  exists e3. rewrite retry_step.
  change (2 + 1 <? MAX_RETRIES) with false. cbv iota.
  unfold throw, after. simpl. f_equal. f_equal.
  - rewrite <- !app_assoc. reflexivity.
  - lia.
Qed.

(** ** Truncation *)

#[local] Abbreviation copy := (copyPages Page copy_fault).
#[local] Abbreviation client :=
  (client_truncate Page pdf_load pdf_save copy_fault).

Lemma after_nothing (w : World) : after w [] 0 = w.
Proof. destruct w. unfold after. simpl. now rewrite app_nil_r, Nat.add_0_r. Qed.

Lemma after_after (w : World) (ev ev' : list Event) (n n' : nat) :
  after (after w ev n) ev' n' = after w (ev ++ ev') (n + n').
Proof. unfold after. simpl. now rewrite app_assoc, Nat.add_assoc. Qed.

Lemma emit_run (e : Event) (w : World) :
  emit e w = (Returned tt, after w [e] 0).
Proof. unfold emit, after. now rewrite Nat.add_0_r. Qed.

Lemma load_run (side : Side) (input : list byte) (w : World) :
  PDFDocument_load Page pdf_load side input w =
  (pdf_load input, after w [PdfLoad side input] 0).
Proof.
  unfold PDFDocument_load, bind, lift. rewrite emit_run. reflexivity.
Qed.

Lemma fold_addPage (pages doc : list Page) :
  fold_left (@addPage Page) pages doc = doc ++ pages.
Proof.
  revert doc. induction pages as [|p pages IH]; intros doc; simpl.
  - now rewrite app_nil_r.
  - rewrite IH. unfold addPage. now rewrite <- app_assoc.
Qed.

(** With more than five pages, the five indices survive the filter and
    [copyPages] yields the first five pages. *)
Lemma copy_first_five (pages : list Page) (w : World) :
  5 < length pages ->
  copy pages (filter (fun i => i <? length pages) [0; 1; 2; 3; 4]) w =
  (Returned (firstn 5 pages), w).
Proof.
  intros H.
  destruct pages as [|p0 [|p1 [|p2 [|p3 [|p4 [|p5 rest]]]]]];
    simpl in H; try lia.
  reflexivity.
Qed.

Lemma truncate_small (inputBytes : list byte) (pages : list Page)
    (w : World) :
  pdf_load inputBytes = Returned pages ->
  length pages <= 5 ->
  truncate inputBytes w =
  (Returned inputBytes, after w [PdfLoad Server inputBytes] 0).
Proof.
  intros Hl Hn. unfold truncatePDFToFivePagesBuffer, bind.
  rewrite load_run, Hl.
  apply Nat.leb_le in Hn. now rewrite Hn.
Qed.

Lemma truncate_large (inputBytes : list byte) (pages : list Page)
    (w : World) :
  pdf_load inputBytes = Returned pages ->
  5 < length pages ->
  truncate inputBytes w =
  (Returned (pdf_save (firstn 5 pages)),
   after w [PdfLoad Server inputBytes; PdfSave Server] 0).
Proof.
  intros Hl Hn. unfold truncatePDFToFivePagesBuffer, bind.
  rewrite load_run, Hl.
  destruct (length pages <=? 5) eqn:Hle; [apply Nat.leb_le in Hle; lia|].
  rewrite copy_first_five by exact Hn.
  unfold PDFDocument_save, bind. rewrite emit_run, after_after.
  unfold PDFDocument_create. now rewrite fold_addPage.
Qed.

Lemma truncate_malformed (inputBytes : list byte) (e : Thrown) (w : World) :
  pdf_load inputBytes = Threw e ->
  truncate inputBytes w = (Threw e, after w [PdfLoad Server inputBytes] 0).
Proof.
  intros Hl. unfold truncatePDFToFivePagesBuffer, bind.
  now rewrite load_run, Hl.
Qed.

Lemma truncate_returned (inputBytes out : list byte) (w w' : World) :
  truncate inputBytes w = (Returned out, w') ->
  exists pages, pdf_load inputBytes = Returned pages.
Proof.
  destruct (pdf_load inputBytes) as [e|pages] eqn:Hl; [|eauto].
  now rewrite (truncate_malformed _ _ w Hl).
Qed.

Lemma client_small (f : File) (pages : list Page) (w : World) :
  pdf_load (file_bytes f) = Returned pages ->
  length pages <= 5 ->
  client f w = (Returned f, after w [PdfLoad Client (file_bytes f)] 0).
Proof.
  intros Hl Hn. unfold client_truncate, bind.
  rewrite load_run, Hl.
  destruct (5 <? length pages) eqn:Hlt; [apply Nat.ltb_lt in Hlt; lia|].
  reflexivity.
Qed.

Lemma client_large (f : File) (pages : list Page) (w : World) :
  pdf_load (file_bytes f) = Returned pages ->
  5 < length pages ->
  client f w =
  (Returned
     (mkFile (strip_pdf_suffix (file_name f) ++ ".first5.pdf")
        "application/pdf"
        (Z.of_nat (length (pdf_save (firstn 5 pages))))
        (pdf_save (firstn 5 pages))),
   after w [PdfLoad Client (file_bytes f); PdfSave Client] 0).
Proof.
  intros Hl Hn. unfold client_truncate, bind.
  rewrite load_run, Hl.
  apply Nat.ltb_lt in Hn as Hlt. rewrite Hlt.
  rewrite copy_first_five by exact Hn.
  unfold PDFDocument_save, bind. rewrite emit_run, after_after.
  unfold PDFDocument_create. now rewrite fold_addPage.
Qed.

(** ** The POST handler, path by path *)

Lemma post_form_unreadable (req : NextRequest) (e : Thrown) (w : World) :
  req_formData req = Threw e ->
  post req w = (Returned (error_response (normalize e)), w).
Proof. intros H. unfold POST, try_catch, bind, lift. now rewrite H. Qed.

Lemma post_no_file (req : NextRequest) (fields : list (string * FormValue))
    (w : World) :
  req_formData req = Returned fields ->
  (forall f, lookup "file" fields <> Some (FormFile f)) ->
  post req w = (Returned (error_response "No file uploaded"), w).
Proof.
  intros H Hn. unfold POST, try_catch, bind, lift. rewrite H.
  destruct (lookup "file" fields) as [[s|f]|]; try reflexivity.
  now elim (Hn f).
Qed.

Lemma post_not_pdf (req : NextRequest) (fields : list (string * FormValue))
    (f : File) (w : World) :
  req_formData req = Returned fields ->
  lookup "file" fields = Some (FormFile f) ->
  file_type f <> "application/pdf" ->
  post req w = (Returned (error_response "Uploaded file must be a PDF"), w).
Proof.
  intros H Hf Ht. unfold POST, try_catch, bind, lift. rewrite H, Hf.
  apply String.eqb_neq in Ht. now rewrite Ht.
Qed.

Lemma post_too_large (req : NextRequest)
    (fields : list (string * FormValue)) (f : File) (w : World) :
  req_formData req = Returned fields ->
  lookup "file" fields = Some (FormFile f) ->
  file_type f = "application/pdf" ->
  (file_size f > maxBytes)%Z ->
  post req w = (Returned (error_response "File too large. Max 4MB."), w).
Proof.
  intros H Hf Ht Hs. unfold POST, try_catch, bind, lift. rewrite H, Hf, Ht.
  simpl. apply Z.gtb_gt in Hs. now rewrite Hs.
Qed.

(** A PDF within the size limit is truncated and sent to the model. *)
Lemma post_accepted (req : NextRequest)
    (fields : list (string * FormValue)) (f : File) (w : World) :
  req_formData req = Returned fields ->
  lookup "file" fields = Some (FormFile f) ->
  file_type f = "application/pdf" ->
  (file_size f <= maxBytes)%Z ->
  post req w =
  match truncate (file_bytes f) w with
  | (Threw e, w1) => (Returned (error_response (normalize e)), w1)
  | (Returned processedBytes, w1) =>
      match call processedBytes w1 with
      | (Threw e, w2) => (Returned (error_response (normalize e)), w2)
      | (Returned json, w2) =>
          (Returned (NextResponse_json [("data", json)] 200), w2)
      end
  end.
Proof.
  intros H Hf Ht Hs. unfold POST, try_catch, bind, lift. rewrite H, Hf, Ht.
  simpl. destruct (file_size f >? maxBytes)%Z eqn:Hgt.
  - apply Z.gtb_gt in Hgt. lia.
  - destruct (truncate (file_bytes f) w) as [[e|processed] w1];
      [reflexivity|].
    destruct (call processed w1) as [[e|json] w2]; reflexivity.
Qed.

(** The handler always returns: a response with status 200 and [data],
    or one with status 400 and a string [error]. *)
Lemma post_total (req : NextRequest) (w : World) :
  exists resp w',
    post req w = (Returned resp, w') /\
    ((status resp = 200%Z /\ exists json, body resp = [("data", json)]) \/
     (status resp = 400%Z /\
      exists message, body resp = [("error", JString message)])).
Proof.
  assert (Herr : forall message w',
             post req w = (Returned (error_response message), w') ->
             exists resp w'',
               post req w = (Returned resp, w'') /\
               ((status resp = 200%Z /\
                 exists json, body resp = [("data", json)]) \/
                (status resp = 400%Z /\
                 exists message, body resp = [("error", JString message)]))).
  { intros message w' E. exists (error_response message), w'.
    split; [exact E|]. right. split; [reflexivity|]. now exists message. }
  destruct (req_formData req) as [e|fields] eqn:H.
  - exact (Herr _ _ (post_form_unreadable req e w H)).
  - destruct (lookup "file" fields) as [[s|f]|] eqn:Hf.
    + apply (Herr "No file uploaded" w), (post_no_file req fields w H).
      rewrite Hf. discriminate.
    + destruct (String.eqb_spec (file_type f) "application/pdf") as [Ht|Ht].
      * destruct (Z_gt_le_dec (file_size f) maxBytes) as [Hs|Hs].
        -- exact (Herr _ _ (post_too_large req fields f w H Hf Ht Hs)).
        -- pose proof (post_accepted req fields f w H Hf Ht Hs) as E.
           destruct (truncate (file_bytes f) w) as [[e|processed] w1];
             [exact (Herr _ _ E)|].
           destruct (call processed w1) as [[e|json] w2];
             [exact (Herr _ _ E)|].
           eexists _, _. split; [exact E|]. left.
           split; [reflexivity|]. now exists json.
      * exact (Herr _ _ (post_not_pdf req fields f w H Hf Ht)).
    + apply (Herr "No file uploaded" w), (post_no_file req fields w H).
      rewrite Hf. discriminate.
Qed.

(** A response with status 200 is the end of the one path on which
    nothing failed. *)
Lemma post_ok (req : NextRequest) (w w' : World) (resp : NextResponse) :
  post req w = (Returned resp, w') ->
  status resp = 200%Z ->
  exists fields f processedBytes w1 json,
    req_formData req = Returned fields /\
    lookup "file" fields = Some (FormFile f) /\
    file_type f = "application/pdf" /\
    (file_size f <= maxBytes)%Z /\
    truncate (file_bytes f) w = (Returned processedBytes, w1) /\
    call processedBytes w1 = (Returned json, w') /\
    resp = NextResponse_json [("data", json)] 200.
Proof.
  destruct (req_formData req) as [e|fields] eqn:H.
  - rewrite (post_form_unreadable req e w H). intros [= <- <-]. discriminate.
  - destruct (lookup "file" fields) as [[s|f]|] eqn:Hf.
    + rewrite (post_no_file req fields w H) by (rewrite Hf; discriminate).
      intros [= <- <-]. discriminate.
    + destruct (String.eqb_spec (file_type f) "application/pdf") as [Ht|Ht].
      * destruct (Z_gt_le_dec (file_size f) maxBytes) as [Hs|Hs].
        -- rewrite (post_too_large req fields f w H Hf Ht Hs).
           intros [= <- <-]. discriminate.
        -- rewrite (post_accepted req fields f w H Hf Ht Hs).
           destruct (truncate (file_bytes f) w) as [[e|processed] w1] eqn:Htr.
           ++ intros [= <- <-]. discriminate.
           ++ destruct (call processed w1) as [[e|json] w2] eqn:Hc.
              ** intros [= <- <-]. discriminate.
              ** intros [= <- <-] _.
                 exists fields, f, processed, w1, json. auto 10.
      * rewrite (post_not_pdf req fields f w H Hf Ht).
        intros [= <- <-]. discriminate.
    + rewrite (post_no_file req fields w H) by (rewrite Hf; discriminate).
      intros [= <- <-]. discriminate.
Qed.

(** ** Traces only grow *)

Lemma copy_world (pages : list Page) (indices : list nat) (w : World) :
  snd (copy pages indices w) = w.
Proof.
  induction indices as [|i rest IH]; simpl; [reflexivity|].
  destruct (nth_error pages i); [|reflexivity].
  unfold bind. destruct (copy pages rest w) as [[e|ps] w1]; exact IH.
Qed.

Lemma truncate_trace (inputBytes : list byte) (w w1 : World)
    (o : Outcome (list byte)) :
  truncate inputBytes w = (o, w1) ->
  exists rest,
    trace w1 = trace w ++ PdfLoad Server inputBytes :: rest.
Proof.
  unfold truncatePDFToFivePagesBuffer, bind. rewrite load_run.
  destruct (pdf_load inputBytes) as [e|pages].
  - intros [= _ <-]. exists []. reflexivity.
  - destruct (length pages <=? 5).
    + intros [= _ <-]. exists []. reflexivity.
    + pose proof (copy_world pages
                    (filter (fun i => i <? length pages) [0; 1; 2; 3; 4])
                    (after w [PdfLoad Server inputBytes] 0)) as Hc.
      destruct (copy pages _ _) as [[e|ps] w2]; simpl in Hc; subst w2.
      * intros [= _ <-]. exists []. reflexivity.
      * unfold PDFDocument_save, bind. rewrite emit_run, after_after.
        intros [= _ <-]. exists [PdfSave Server]. reflexivity.
Qed.

Lemma retry_trace (pdfBytes : list byte) (n attempt : nat) :
  forall (lastError : option Thrown) (w w' : World) (o : Outcome Json),
    MAX_RETRIES - attempt <= n ->
    loop pdfBytes attempt lastError w = (o, w') ->
    exists events, trace w' = trace w ++ events.
Proof.
  revert attempt.
  induction n as [|n IH]; intros attempt lastError w w' o Hn;
    rewrite retry_step;
    destruct (attempt <? MAX_RETRIES) eqn:Ha;
    try (intros [= _ <-]; exists []; now rewrite app_nil_r).
  - apply Nat.ltb_lt in Ha. lia.
  - unfold try_catch. rewrite generate_run.
    destruct (fst (generate pdfBytes w)) as [e|v].
    + unfold bind at 1.
      destruct (attempt + 1 <? MAX_RETRIES).
      * rewrite emit_run, after_after. intros H.
        apply IH in H as (events & ->); [|lia].
        simpl. rewrite <- app_assoc. eauto.
      * unfold ret. intros H.
        apply IH in H as (events & ->); [|lia].
        simpl. rewrite <- app_assoc. eauto.
    + intros [= _ <-]. simpl. eauto.
Qed.

Lemma call_trace (pdfBytes : list byte) (w w' : World) (o : Outcome Json) :
  call pdfBytes w = (o, w') ->
  exists events, trace w' = trace w ++ events.
Proof.
  unfold callGeminiUsingAiSdk. destruct (key_missing GEMINI_API_KEY).
  - intros [= _ <-]. exists []. now rewrite app_nil_r.
  - exact (retry_trace pdfBytes MAX_RETRIES 0 None w w' o (Nat.le_refl _)).
Qed.

(** On an upload that passes the three guards, the first thing the
    handler does is load the uploaded bytes for truncation. *)
Lemma post_accepted_trace (req : NextRequest)
    (fields : list (string * FormValue)) (f : File) (w w' : World)
    (o : Outcome NextResponse) :
  req_formData req = Returned fields ->
  lookup "file" fields = Some (FormFile f) ->
  file_type f = "application/pdf" ->
  (file_size f <= maxBytes)%Z ->
  post req w = (o, w') ->
  exists rest,
    trace w' = trace w ++ PdfLoad Server (file_bytes f) :: rest.
Proof.
  intros H Hf Ht Hs. rewrite (post_accepted req fields f w H Hf Ht Hs).
  destruct (truncate (file_bytes f) w) as [[e|processed] w1] eqn:Htr;
    apply truncate_trace in Htr as (rest & Htr).
  - intros [= _ <-]. eauto.
  - destruct (call processed w1) as [[e|json] w2] eqn:Hc;
      apply call_trace in Hc as (events & Hc);
      intros [= _ <-]; rewrite Hc, Htr, <- app_assoc; simpl; eauto.
Qed.

(** ** The submission client *)

Lemma fetch_run (fileToSend : File) (w : World) :
  exists resp w',
    post (upload_of fileToSend)
      (after w [Upload fileToSend] 0) = (Returned resp, w') /\
    fetch_analyze Page pdf_load pdf_save copy_fault model no_object
      GEMINI_API_KEY fileToSend w = (Returned (body resp), w').
Proof.
  destruct (post_total (upload_of fileToSend)
              (after w [Upload fileToSend] 0)) as (resp & w' & E & _).
  exists resp, w'. split; [exact E|].
  unfold fetch_analyze, bind. now rewrite emit_run, E.
Qed.

(** Whatever file the truncation step settles on is uploaded, and the
    answer of the handler decides the state of the page. *)
Lemma submit_run (f fileToSend : File) (w w1 : World) :
  try_catch (client f) (fun e => emit (Warn e) ;; ret f) w
    = (Returned fileToSend, w1) ->
  exists resp w',
    post (upload_of fileToSend)
      (after w1 [Upload fileToSend] 0) = (Returned resp, w') /\
    submit (Some f) w =
    (Returned
       match truthy_error (body resp) with
       | Some m => mkUi JNull (Some m) false
       | None => mkUi (data_or_null (body resp)) None false
       end, w').
Proof.
  intros Hc. destruct (fetch_run fileToSend w1) as (resp & w' & E & Hf).
  exists resp, w'. split; [exact E|].
  unfold handleSubmit. unfold try_catch at 1. unfold bind at 1.
  rewrite Hc. unfold bind. rewrite Hf.
  destruct (truthy_error (body resp)); reflexivity.
Qed.

Lemma client_fallback (f : File) (w w1 : World) (e : Thrown) :
  client f w = (Threw e, w1) ->
  try_catch (client f) (fun e => emit (Warn e) ;; ret f) w
    = (Returned f, after w1 [Warn e] 0).
Proof.
  intros H. unfold try_catch. rewrite H. unfold bind.
  now rewrite emit_run.
Qed.

(** ** The message of an error response *)

Lemma normalize_generic (e : Thrown) :
  includes (normalize e) "GEMINI_API_KEY" = false.
Proof.
  unfold normalize.
  set (message := match e with
                  | ErrorObj _ message => message
                  | NonError _ => "Unknown error"
                  end).
  destruct (includes message "GEMINI_API_KEY") eqn:Hk; [reflexivity|].
  destruct (includes message "not a valid PDF"); [reflexivity|].
  simpl. exact Hk.
Qed.

(** ** The claims about the handlers *)

(** C1.  With the credential set, when every attempt of the model call
    fails (the provider fails, or its reply does not pass the schema),
    the caller makes exactly three attempts, waits 2000 ms before the
    second and 4000 ms before the third, and then throws an error whose
    message names the number of attempts. *)
Theorem call_fails_after_three_attempts (pdfBytes : list byte) (w : World) :
  key_missing GEMINI_API_KEY = false ->
  (forall k, k < MAX_RETRIES ->
             reply_fails (model (served w + k) pdfBytes)) ->
  exists e message,
    call pdfBytes w =
    (Threw (new_Error message),
     after w [ModelCall pdfBytes; Sleep 2000;
              ModelCall pdfBytes; Sleep 4000;
              ModelCall pdfBytes] MAX_RETRIES) /\
    message =
      ("Failed to get response from Gemini via AI SDK after 3 attempts: "
       ++ describe (Some e))%string /\
    includes message (string_of_nat MAX_RETRIES ++ " attempts") = true /\
    (forall n, delayMs n = (2 ^ Z.of_nat n * 1000)%Z).
Proof.
  intros Hk Hf.
  destruct (call_exhausted pdfBytes w Hk Hf) as (e & E).
  exists e. eexists. split; [exact E|]. split; [reflexivity|].
  split; [|reflexivity].
  exact (includes_app "Failed to get response from Gemini via AI SDK after "
           "3 attempts" (": " ++ describe (Some e))).
Qed.

(** C3.  For input that parses with at most five pages, the server-side
    truncation returns its input, and the client-side run keeps the
    selected file, which is what it uploads; neither saves a document. *)
Theorem truncate_identity (inputBytes : list byte) (pages : list Page) :
  pdf_load inputBytes = Returned pages ->
  length pages <= 5 ->
  (forall w,
      truncate inputBytes w =
      (Returned inputBytes, after w [PdfLoad Server inputBytes] 0))
  /\ (forall f w,
        file_bytes f = inputBytes ->
        client f w = (Returned f, after w [PdfLoad Client inputBytes] 0) /\
        exists ui w' rest,
          submit (Some f) w = (Returned ui, w') /\
          trace w' =
          trace w ++ PdfLoad Client inputBytes :: Upload f :: rest).
Proof.
  intros Hl Hn. split.
  - intros w. exact (truncate_small inputBytes pages w Hl Hn).
  - intros f w <-.
    pose proof (client_small f pages w Hl Hn) as Hc. split; [exact Hc|].
    assert (Ht : try_catch (client f) (fun e => emit (Warn e) ;; ret f) w
                 = (Returned f, after w [PdfLoad Client (file_bytes f)] 0))
      by (unfold try_catch; now rewrite Hc).
    destruct (submit_run f f w _ Ht) as (resp & w' & E & Hs).
    destruct (req_formData (upload_of f)) eqn:Hreq; [discriminate|].
    injection Hreq as <-.
    eexists _, w'.
    destruct (String.eqb_spec (file_type f) "application/pdf") as [Hty|Hty].
    + destruct (Z_gt_le_dec (file_size f) maxBytes) as [Hsz|Hsz].
      * rewrite (post_too_large (upload_of f) _ f _ eq_refl eq_refl Hty Hsz)
          in E.
        injection E as _ <-. exists []. split; [exact Hs|]. simpl.
        now rewrite <- app_assoc.
      * destruct (post_accepted_trace (upload_of f) _ f _ _ _
                    eq_refl eq_refl Hty Hsz E) as (rest & Hr).
        eexists. split; [exact Hs|]. rewrite Hr. simpl.
        rewrite <- !app_assoc. reflexivity.
    + rewrite (post_not_pdf (upload_of f) _ f _ eq_refl eq_refl Hty) in E.
      injection E as _ <-. exists []. split; [exact Hs|]. simpl.
      now rewrite <- app_assoc.
Qed.

(** C4.  For input that parses with more than five pages, the truncation
    returns the serialization of a document that holds exactly the first
    five pages, pages 0 to 4 of the input in their order; the client-side
    run uploads a file with those bytes. *)
Theorem truncate_first_five (inputBytes : list byte) (pages : list Page) :
  pdf_load inputBytes = Returned pages ->
  5 < length pages ->
  (forall w,
      truncate inputBytes w =
      (Returned (pdf_save (firstn 5 pages)),
       after w [PdfLoad Server inputBytes; PdfSave Server] 0))
  /\ length (firstn 5 pages) = 5
  /\ (forall i, i < 5 -> nth_error (firstn 5 pages) i = nth_error pages i)
  /\ (forall f w,
        file_bytes f = inputBytes ->
        exists fileToSend,
          client f w =
          (Returned fileToSend,
           after w [PdfLoad Client inputBytes; PdfSave Client] 0) /\
          file_bytes fileToSend = pdf_save (firstn 5 pages)).
Proof.
  intros Hl Hn. split; [|split; [|split]].
  - intros w. exact (truncate_large inputBytes pages w Hl Hn).
  - rewrite length_firstn. lia.
  - intros i Hi. rewrite nth_error_firstn.
    apply Nat.ltb_lt in Hi. now rewrite Hi.
  - intros f w <-. eexists. split.
    + exact (client_large f pages w Hl Hn).
    + reflexivity.
Qed.

Lemma generate_null (pdfBytes : list byte) (w : World) :
  model (served w) pdfBytes = ReplyJson JNull ->
  fst (generate pdfBytes w) = Returned JNull.
Proof. intros H. unfold generateObject. now rewrite H. Qed.

(** C5.  On a request that reaches the model call, a reply that is the
    top-level null passes the validator whatever the schema under
    [.nullable()] is, ends the retry loop at once (one request, no wait),
    and the handler answers with status 200 and [data: null]. *)
Theorem null_is_success (req : NextRequest)
    (fields : list (string * FormValue)) (f : File)
    (processedBytes : list byte) (w w1 : World) :
  req_formData req = Returned fields ->
  lookup "file" fields = Some (FormFile f) ->
  file_type f = "application/pdf" ->
  (file_size f <= maxBytes)%Z ->
  truncate (file_bytes f) w = (Returned processedBytes, w1) ->
  key_missing GEMINI_API_KEY = false ->
  model (served w1) processedBytes = ReplyJson JNull ->
  validate JNull = Valid JNull
  /\ (forall s, parse (SNullable s) (Some JNull) = Valid JNull)
  /\ call processedBytes w1 =
     (Returned JNull, after w1 [ModelCall processedBytes] 1)
  /\ post req w =
     (Returned (NextResponse_json [("data", JNull)] 200),
      after w1 [ModelCall processedBytes] 1)
  /\ (forall attempt lastError w',
        attempt < MAX_RETRIES ->
        model (served w') processedBytes = ReplyJson JNull ->
        loop processedBytes attempt lastError w' =
        (Returned JNull, after w' [ModelCall processedBytes] 1)).
Proof.
  intros H Hf Ht Hs Htr Hk Hm.
  assert (Hloop : forall attempt lastError w',
             attempt < MAX_RETRIES ->
             model (served w') processedBytes = ReplyJson JNull ->
             loop processedBytes attempt lastError w' =
             (Returned JNull, after w' [ModelCall processedBytes] 1)).
  { intros attempt lastError w' Ha Hm'.
    exact (retry_returns processedBytes attempt lastError w' JNull Ha
             (generate_null processedBytes w' Hm')). }
  assert (Hcall : call processedBytes w1 =
                  (Returned JNull, after w1 [ModelCall processedBytes] 1)).
  { unfold callGeminiUsingAiSdk. rewrite Hk.
    apply Hloop; [unfold MAX_RETRIES; lia | exact Hm]. }
  repeat split; try assumption.
  rewrite (post_accepted req fields f w H Hf Ht Hs), Htr, Hcall.
  reflexivity.
Qed.

Lemma truncate_served (inputBytes : list byte) (w w1 : World)
    (o : Outcome (list byte)) :
  truncate inputBytes w = (o, w1) -> served w1 = served w.
Proof.
  unfold truncatePDFToFivePagesBuffer, bind. rewrite load_run.
  destruct (pdf_load inputBytes) as [e|pages].
  - intros [= _ <-]. simpl. lia.
  - destruct (length pages <=? 5).
    + intros [= _ <-]. simpl. lia.
    + pose proof (copy_world pages
                    (filter (fun i => i <? length pages) [0; 1; 2; 3; 4])
                    (after w [PdfLoad Server inputBytes] 0)) as Hc.
      destruct (copy pages _ _) as [[e|ps] w2]; simpl in Hc; subst w2.
      * intros [= _ <-]. simpl. lia.
      * unfold PDFDocument_save, bind. rewrite emit_run.
        intros [= _ <-]. simpl. lia.
Qed.

Lemma call_without_key (pdfBytes : list byte) (w : World) :
  key_missing GEMINI_API_KEY = true ->
  call pdfBytes w =
  (Threw (new_Error "GEMINI_API_KEY is not set in environment variables"),
   w).
Proof. intros Hk. unfold callGeminiUsingAiSdk. now rewrite Hk. Qed.

(** C6.  With the credential absent, or empty once trimmed, the caller
    throws at once: no request to the model and no wait, the world is
    unchanged.  A request that reaches the call is answered with status
    400 and the message 'API key configuration error'; and no request at
    all is answered with anything but a status 400 whose message does not
    contain the name of the credential, the model never being called. *)
Theorem missing_credential :
  (GEMINI_API_KEY = None \/
   exists k, GEMINI_API_KEY = Some k /\ trim k = "") ->
  (forall pdfBytes w,
      call pdfBytes w =
      (Threw
         (new_Error "GEMINI_API_KEY is not set in environment variables"),
       w))
  /\ (forall req fields f processedBytes w w1,
        req_formData req = Returned fields ->
        lookup "file" fields = Some (FormFile f) ->
        file_type f = "application/pdf" ->
        (file_size f <= maxBytes)%Z ->
        truncate (file_bytes f) w = (Returned processedBytes, w1) ->
        post req w =
        (Returned
           (NextResponse_json
              [("error", JString "API key configuration error")] 400),
         w1))
  /\ (forall req w,
        exists message w',
          post req w =
          (Returned (NextResponse_json [("error", JString message)] 400),
           w') /\
          includes message "GEMINI_API_KEY" = false /\
          served w' = served w).
Proof.
  intros Habsent.
  assert (Hk : key_missing GEMINI_API_KEY = true).
  { destruct Habsent as [->|(k & -> & Hk)]; [reflexivity|].
    simpl. rewrite Hk. apply orb_true_r. }
  split; [|split].
  - intros pdfBytes w. exact (call_without_key pdfBytes w Hk).
  - intros req fields f processedBytes w w1 H Hf Ht Hs Htr.
    rewrite (post_accepted req fields f w H Hf Ht Hs), Htr.
    now rewrite (call_without_key processedBytes w1 Hk).
  - intros req w.
    destruct (req_formData req) as [e|fields] eqn:H.
    { exists (normalize e), w. split; [|split; [apply normalize_generic|]];
        [exact (post_form_unreadable req e w H) | reflexivity]. }
    assert (Hnone : (forall f, lookup "file" fields <> Some (FormFile f)) ->
                    exists message w',
                      post req w =
                      (Returned
                         (NextResponse_json [("error", JString message)] 400),
                       w') /\
                      includes message "GEMINI_API_KEY" = false /\
                      served w' = served w).
    { intros Hn. exists "No file uploaded", w.
      split; [exact (post_no_file req fields w H Hn)|]. now split. }
    destruct (lookup "file" fields) as [[s|f]|] eqn:Hf;
      try (apply Hnone; discriminate).
    destruct (String.eqb_spec (file_type f) "application/pdf") as [Ht|Ht].
    + destruct (Z_gt_le_dec (file_size f) maxBytes) as [Hs|Hs].
      * exists "File too large. Max 4MB.", w.
        split; [exact (post_too_large req fields f w H Hf Ht Hs)|].
        now split.
      * pose proof (post_accepted req fields f w H Hf Ht Hs) as E.
        destruct (truncate (file_bytes f) w) as [[e|processed] w1] eqn:Htr;
          apply truncate_served in Htr.
        -- exists (normalize e), w1. split; [exact E|].
           split; [apply normalize_generic | exact Htr].
        -- rewrite (call_without_key processed w1 Hk) in E.
           exists "API key configuration error", w1. split; [exact E|].
           split; [reflexivity | exact Htr].
    + exists "Uploaded file must be a PDF", w.
      split; [exact (post_not_pdf req fields f w H Hf Ht)|]. now split.
Qed.

(** C7, as the code has it.  When the client-side truncation throws, the
    client logs the error with [console.warn] and uploads the selected
    file itself.  The handler then loads those same bytes for its own
    truncation whenever the upload passes its guards on media type and
    size; an upload that fails a guard is answered without any
    truncation. *)
Theorem client_fallback_then_server (f : File) (w w1 : World) (e : Thrown) :
  client f w = (Threw e, w1) ->
  exists ui w' rest,
    submit (Some f) w = (Returned ui, w') /\
    trace w' = trace w1 ++ Warn e :: Upload f :: rest /\
    (file_type f = "application/pdf" -> (file_size f <= maxBytes)%Z ->
     exists rest', rest = PdfLoad Server (file_bytes f) :: rest') /\
    (file_type f <> "application/pdf" \/ (file_size f > maxBytes)%Z ->
     rest = []).
Proof.
  intros Hc.
  destruct (submit_run f f w _ (client_fallback f w w1 e Hc))
    as (resp & w' & E & Hs).
  exists (match truthy_error (body resp) with
          | Some m => mkUi JNull (Some m) false
          | None => mkUi (data_or_null (body resp)) None false
          end), w'.
  destruct (String.eqb_spec (file_type f) "application/pdf") as [Hty|Hty].
  - destruct (Z_gt_le_dec (file_size f) maxBytes) as [Hsz|Hsz].
    + rewrite (post_too_large (upload_of f) _ f _ eq_refl eq_refl Hty Hsz)
        in E.
      injection E as _ <-. exists []. split; [exact Hs|]. split.
      * simpl. now rewrite <- !app_assoc.
      * split; [lia | reflexivity].
    + destruct (post_accepted_trace (upload_of f) _ f _ _ _
                  eq_refl eq_refl Hty Hsz E) as (rest & Hr).
      exists (PdfLoad Server (file_bytes f) :: rest).
      split; [exact Hs|]. split.
      * rewrite Hr. simpl. now rewrite <- !app_assoc.
      * split; [eauto|]. intros [Hno|Hno]; [now elim Hno | lia].
  - rewrite (post_not_pdf (upload_of f) _ f _ eq_refl eq_refl Hty) in E.
    injection E as _ <-. exists []. split; [exact Hs|]. split.
    + simpl. now rewrite <- !app_assoc.
    + split; [intros Hyes; now elim Hty | reflexivity].
Qed.

(** C8.  An uploaded file of more than 4 MiB is answered with status 400
    and a message that says what is wrong, the world being left as it
    was: nothing is loaded for truncation and the model is not called.
    The message is 'File too large. Max 4MB.' when the file is declared
    a PDF; otherwise the media type is reported first. *)
Theorem oversized_rejected (req : NextRequest)
    (fields : list (string * FormValue)) (f : File) (w : World) :
  req_formData req = Returned fields ->
  lookup "file" fields = Some (FormFile f) ->
  (file_size f > maxBytes)%Z ->
  exists message,
    post req w =
    (Returned (NextResponse_json [("error", JString message)] 400), w) /\
    (message = "File too large. Max 4MB." \/
     message = "Uploaded file must be a PDF") /\
    (file_type f = "application/pdf" ->
     message = "File too large. Max 4MB.") /\
    maxBytes = 4194304%Z.
Proof.
  intros H Hf Hs.
  destruct (String.eqb_spec (file_type f) "application/pdf") as [Ht|Ht].
  - exists "File too large. Max 4MB.".
    split; [exact (post_too_large req fields f w H Hf Ht Hs)|]. auto.
  - exists "Uploaded file must be a PDF".
    split; [exact (post_not_pdf req fields f w H Hf Ht)|].
    repeat split; auto. intros Hyes. now elim Ht.
Qed.

(** C10.  The handler answers every request, and its answer is either
    status 200 with a body that holds [data] alone, or status 400 with a
    body that holds a string [error] alone.  On each failure path (form
    unreadable, no file, not a PDF, too large, malformed PDF, missing
    credential, every attempt of the model call failing) the status is
    400. *)
Theorem post_responses (req : NextRequest) (w : World) :
  exists resp w',
    post req w = (Returned resp, w') /\
    one_of_data_error (body resp) /\
    (lookup "data" (body resp) = None \/ lookup "error" (body resp) = None) /\
    (status resp = 200%Z \/ status resp = 400%Z) /\
    (status resp = 200%Z <-> exists json, body resp = [("data", json)]) /\
    (failure Page pdf_load model GEMINI_API_KEY req ->
     status resp = 400%Z /\
     exists message, body resp = [("error", JString message)]).
Proof.
  destruct (post_total req w)
    as (resp & w' & E & [(Hst & json & Hb)|(Hst & message & Hb)]);
    exists resp, w'; (split; [exact E|]); unfold one_of_data_error;
    rewrite Hb, Hst.
  - split; [eauto|]. split; [now right|]. split; [now left|].
    split; [split; eauto|].
    intros Hfail. exfalso.
    destruct (post_ok req w w' resp E Hst)
      as (fields & f & processed & w1 & json' & H & Hf & Ht & Hs & Htr
          & Hc & _).
    destruct (truncate_returned _ _ _ _ Htr) as (pages & Hl).
    destruct (call_returned _ _ _ _ Hc) as (Hk & w0 & Hg).
    destruct Hfail as [e He|fields' H' Hn|fields' f' H' Hf' Hty
                      |fields' f' H' Hf' Hsz|fields' f' e H' Hf' Hl'
                      |Hk'|Hall].
    + congruence.
    + rewrite H in H'. injection H' as <-. exact (Hn f Hf).
    + rewrite H in H'. injection H' as <-. rewrite Hf in Hf'.
      injection Hf' as <-. exact (Hty Ht).
    + rewrite H in H'. injection H' as <-. rewrite Hf in Hf'.
      injection Hf' as <-. lia.
    + rewrite H in H'. injection H' as <-. rewrite Hf in Hf'.
      injection Hf' as <-. congruence.
    + congruence.
    + exact (generate_returned _ _ _ Hg (Hall (served w0) processed)).
  - split; [eauto|]. split; [now left|]. split; [now right|].
    split; [split; [discriminate | intros (json & Hj); discriminate]|].
    intros _. eauto.
Qed.

(** ** More on the retry loop *)

Lemma generate_valid (pdfBytes : list byte) (w : World) (c v : Json) :
  model (served w) pdfBytes = ReplyJson c ->
  validate c = Valid v ->
  fst (generate pdfBytes w) = Returned v.
Proof.
  intros Hm Hv. unfold generateObject. rewrite Hm.
  unfold validate in Hv. now rewrite Hv.
Qed.

Lemma generate_returned_valid (pdfBytes : list byte) (w : World) (v : Json) :
  fst (generate pdfBytes w) = Returned v ->
  exists c, model (served w) pdfBytes = ReplyJson c /\ validate c = Valid v.
Proof.
  unfold generateObject, validate.
  destruct (model (served w) pdfBytes) as [e|c]; [discriminate|].
  destruct (parse response_schema (Some c)) as [v'|issues] eqn:E;
    [|discriminate].
  intros [= <-]. eauto.
Qed.

Lemma retry_succeeds (pdfBytes : list byte) (c v : Json) (k : nat) :
  forall (attempt : nat) (lastError : option Thrown) (w : World),
    attempt + k < MAX_RETRIES ->
    (forall j, j < k -> reply_fails (model (served w + j) pdfBytes)) ->
    model (served w + k) pdfBytes = ReplyJson c ->
    validate c = Valid v ->
    loop pdfBytes attempt lastError w =
    (Returned v,
     after w (failed_attempts pdfBytes attempt k ++ [ModelCall pdfBytes])
       (k + 1)).
Proof.
  induction k as [|k IH]; intros attempt lastError w Ha Hf Hm Hv.
  - rewrite Nat.add_0_r in Hm, Ha.
    exact (retry_returns pdfBytes attempt lastError w v Ha
             (generate_valid pdfBytes w c v Hm Hv)).
  - destruct (generate_fails pdfBytes w) as (e & He).
    { specialize (Hf 0 (Nat.lt_0_succ k)). now rewrite Nat.add_0_r in Hf. }
    rewrite (retry_throws pdfBytes attempt lastError w e ltac:(lia) He).
    assert (Hlt : (attempt + 1 <? MAX_RETRIES) = true)
      by (apply Nat.ltb_lt; lia).
    rewrite Hlt.
    rewrite (IH (attempt + 1) (Some e)
               (after w [ModelCall pdfBytes;
                         Sleep (delayMs (attempt + 1))] 1)).
    + rewrite after_after. reflexivity.
    + lia.
    + intros j Hj. simpl. rewrite <- Nat.add_assoc. apply Hf. lia.
    + simpl. rewrite <- Nat.add_assoc. exact Hm.
    + exact Hv.
Qed.

(** X1.  With the credential set, when the first [k] attempts fail
    ([k] being 0, 1 or 2) and the next reply passes the schema, the
    caller returns the validated value after [k + 1] requests, having
    waited 2 s after the first failure and 4 s after the second, and does
    nothing more. *)
Theorem call_succeeds_after_failures (pdfBytes : list byte) (c v : Json)
    (k : nat) (w : World) :
  key_missing GEMINI_API_KEY = false ->
  k < MAX_RETRIES ->
  (forall j, j < k -> reply_fails (model (served w + j) pdfBytes)) ->
  model (served w + k) pdfBytes = ReplyJson c ->
  validate c = Valid v ->
  call pdfBytes w =
  (Returned v,
   after w (failed_attempts pdfBytes 0 k ++ [ModelCall pdfBytes]) (k + 1))
  /\ failed_attempts pdfBytes 0 2 =
     [ModelCall pdfBytes; Sleep 2000; ModelCall pdfBytes; Sleep 4000].
Proof.
  intros Hk Hlt Hf Hm Hv. split; [|reflexivity].
  unfold callGeminiUsingAiSdk. rewrite Hk.
  exact (retry_succeeds pdfBytes c v k 0 None w Hlt Hf Hm Hv).
Qed.

Lemma retry_cases (pdfBytes : list byte) (attempt : nat)
    (lastError : option Thrown) (w w' : World) (o : Outcome Json) :
  attempt < MAX_RETRIES ->
  loop pdfBytes attempt lastError w = (o, w') ->
  (exists v, o = Returned v /\ w' = after w [ModelCall pdfBytes] 1) \/
  (exists e,
      loop pdfBytes (attempt + 1) (Some e)
        (if attempt + 1 <? MAX_RETRIES
         then after w [ModelCall pdfBytes; Sleep (delayMs (attempt + 1))] 1
         else after w [ModelCall pdfBytes] 1) = (o, w')).
Proof.
  intros Ha.
  destruct (fst (generate pdfBytes w)) as [e|v] eqn:Hg.
  - rewrite (retry_throws pdfBytes attempt lastError w e Ha Hg). eauto.
  - rewrite (retry_returns pdfBytes attempt lastError w v Ha Hg).
    intros [= <- <-]. eauto.
Qed.

(** All the caller can do, by outcome. *)
Lemma call_cases (pdfBytes : list byte) (w w' : World) (o : Outcome Json) :
  call pdfBytes w = (o, w') ->
  (key_missing GEMINI_API_KEY = true /\
   o = Threw
         (new_Error "GEMINI_API_KEY is not set in environment variables") /\
   w' = w)
  \/ (key_missing GEMINI_API_KEY = false /\
      exists v,
        o = Returned v /\
        (w' = after w [ModelCall pdfBytes] 1 \/
         w' = after w [ModelCall pdfBytes; Sleep 2000;
                       ModelCall pdfBytes] 2 \/
         w' = after w [ModelCall pdfBytes; Sleep 2000;
                       ModelCall pdfBytes; Sleep 4000;
                       ModelCall pdfBytes] 3))
  \/ (key_missing GEMINI_API_KEY = false /\
      exists e,
        o = Threw (exhausted (Some e)) /\
        w' = after w [ModelCall pdfBytes; Sleep 2000;
                      ModelCall pdfBytes; Sleep 4000;
                      ModelCall pdfBytes] 3).
Proof.
  unfold callGeminiUsingAiSdk.
  destruct (key_missing GEMINI_API_KEY) eqn:Hk.
  { intros [= <- <-]. left. auto. }
  intros H. right.
  assert (H0 : 0 < MAX_RETRIES) by (unfold MAX_RETRIES; lia).
  assert (H1 : 1 < MAX_RETRIES) by (unfold MAX_RETRIES; lia).
  assert (H2 : 2 < MAX_RETRIES) by (unfold MAX_RETRIES; lia).
  apply (retry_cases pdfBytes 0 None w w' o H0) in H
    as [(v & -> & ->)|(e1 & H)]; [left; eauto 6|].
  change (0 + 1 <? MAX_RETRIES) with true in H. cbv iota in H.
  apply (retry_cases pdfBytes 1 _ _ w' o H1) in H
    as [(v & -> & ->)|(e2 & H)].
  { left. split; [reflexivity|]. exists v. split; [reflexivity|].
    right. left. now rewrite after_after. }
  change (1 + 1 <? MAX_RETRIES) with true in H. cbv iota in H.
  apply (retry_cases pdfBytes 2 _ _ w' o H2) in H
    as [(v & -> & ->)|(e3 & H)].
  { left. split; [reflexivity|]. exists v. split; [reflexivity|].
    right. right. now rewrite !after_after. }
  change (2 + 1 <? MAX_RETRIES) with false in H. cbv iota in H.
  rewrite retry_step in H.
  change (2 + 1 <? MAX_RETRIES) with false in H. cbv iota in H.
  injection H as <- <-. right. split; [reflexivity|].
  exists e3. split; [reflexivity|]. now rewrite !after_after.
Qed.

(** X2.  Whatever the provider replies, a call of the caller has one of
    five effects: nothing, with the configuration error, when the
    credential is missing; one, two or three requests with a value
    returned; three requests with the error of exhausted retries.  The
    waits are 2 s and 4 s, always between two requests: the caller never
    waits after its last request and never makes a fourth. *)
Theorem call_effects (pdfBytes : list byte) (w w' : World)
    (o : Outcome Json) :
  call pdfBytes w = (o, w') ->
  (key_missing GEMINI_API_KEY = true /\
   o = Threw
         (new_Error "GEMINI_API_KEY is not set in environment variables") /\
   w' = w)
  \/ (key_missing GEMINI_API_KEY = false /\
      exists v,
        o = Returned v /\
        (w' = after w [ModelCall pdfBytes] 1 \/
         w' = after w [ModelCall pdfBytes; Sleep 2000;
                       ModelCall pdfBytes] 2 \/
         w' = after w [ModelCall pdfBytes; Sleep 2000;
                       ModelCall pdfBytes; Sleep 4000;
                       ModelCall pdfBytes] 3))
  \/ (key_missing GEMINI_API_KEY = false /\
      exists e,
        o = Threw (exhausted (Some e)) /\
        w' = after w [ModelCall pdfBytes; Sleep 2000;
                      ModelCall pdfBytes; Sleep 4000;
                      ModelCall pdfBytes] 3).
Proof. exact (call_cases pdfBytes w w' o). Qed.

Lemma valid_null_or_object (c v : Json) :
  validate c = Valid v -> v = JNull \/ exists out, v = JObject out.
Proof.
  destruct c as [| | | | |kv]; try discriminate.
  - intros [= <-]. now left.
  - rewrite validate_non_null by exact I. intros H.
    apply parse_object_input in H as (kv' & out & _ & -> & _). eauto.
Qed.

(** What the caller returns has passed the validator, and passes it
    again. *)
Lemma call_returns_valid (pdfBytes : list byte) (w w' : World) (v : Json) :
  call pdfBytes w = (Returned v, w') ->
  validate v = Valid v /\ (v = JNull \/ exists out, v = JObject out).
Proof.
  intros H. apply call_returned in H as (_ & w0 & Hg).
  apply generate_returned_valid in Hg as (c & _ & Hv). split.
  - exact (parse_idempotent response_schema eq_refl (Some c) v Hv).
  - exact (valid_null_or_object c v Hv).
Qed.


(** ** More on truncation *)

Lemma truncate_threw (inputBytes : list byte) (w w1 : World) (e : Thrown) :
  truncate inputBytes w = (Threw e, w1) ->
  pdf_load inputBytes = Threw e /\
  w1 = after w [PdfLoad Server inputBytes] 0.
Proof.
  destruct (pdf_load inputBytes) as [e'|pages] eqn:Hl.
  - rewrite (truncate_malformed inputBytes e' w Hl).
    intros [= <- <-]. auto.
  - destruct (Nat.le_gt_cases (length pages) 5) as [Hn|Hn].
    + now rewrite (truncate_small inputBytes pages w Hl Hn).
    + now rewrite (truncate_large inputBytes pages w Hl Hn).
Qed.

Lemma truncate_cases (inputBytes out : list byte) (w w1 : World) :
  truncate inputBytes w = (Returned out, w1) ->
  exists pages,
    pdf_load inputBytes = Returned pages /\
    ((length pages <= 5 /\ out = inputBytes /\
      w1 = after w [PdfLoad Server inputBytes] 0) \/
     (5 < length pages /\ out = pdf_save (firstn 5 pages) /\
      w1 = after w [PdfLoad Server inputBytes; PdfSave Server] 0)).
Proof.
  destruct (pdf_load inputBytes) as [e'|pages] eqn:Hl.
  - now rewrite (truncate_malformed inputBytes e' w Hl).
  - intros H. exists pages. split; [reflexivity|].
    destruct (Nat.le_gt_cases (length pages) 5) as [Hn|Hn].
    + rewrite (truncate_small inputBytes pages w Hl Hn) in H.
      injection H as <- <-. left. auto.
    + rewrite (truncate_large inputBytes pages w Hl Hn) in H.
      injection H as <- <-. right. auto.
Qed.

(** With a library that loads what it has saved, the truncated bytes
    load as a document of at most five pages. *)
Lemma truncate_bounded (inputBytes out : list byte) (w w1 : World) :
  (forall doc, pdf_load (pdf_save doc) = Returned doc) ->
  truncate inputBytes w = (Returned out, w1) ->
  exists pages, pdf_load out = Returned pages /\ length pages <= 5.
Proof.
  intros Hrt H.
  apply truncate_cases in H
    as (pages & Hl & [(Hn & -> & _)|(Hn & -> & _)]).
  - eauto.
  - exists (firstn 5 pages). split; [apply Hrt|].
    rewrite length_firstn. lia.
Qed.

(** X11.  With a library that loads what it has saved, truncating what
    a truncation returned changes nothing: the second run returns its
    input and saves no document. *)
Theorem truncate_twice (inputBytes out : list byte) (w w1 : World) :
  (forall doc, pdf_load (pdf_save doc) = Returned doc) ->
  truncate inputBytes w = (Returned out, w1) ->
  forall w2,
    truncate out w2 = (Returned out, after w2 [PdfLoad Server out] 0).
Proof.
  intros Hrt H w2.
  destruct (truncate_bounded inputBytes out w w1 Hrt H) as (pages & Hl & Hn).
  exact (truncate_small out pages w2 Hl Hn).
Qed.

(** ** More on the POST handler *)

Lemma normalize_nonempty (e : Thrown) : normalize e <> "".
Proof.
  unfold normalize.
  destruct (includes _ "GEMINI_API_KEY"); [discriminate|].
  destruct (includes _ "not a valid PDF"); discriminate.
Qed.

(** A request is turned away at a guard, the world untouched, or it is a
    PDF within the size limit. *)
Lemma post_cases (req : NextRequest) (w : World) :
  (exists message,
      post req w = (Returned (error_response message), w) /\
      message <> "" /\ includes message "GEMINI_API_KEY" = false)
  \/ (exists fields f,
        req_formData req = Returned fields /\
        lookup "file" fields = Some (FormFile f) /\
        file_type f = "application/pdf" /\
        (file_size f <= maxBytes)%Z).
Proof.
  destruct (req_formData req) as [e|fields] eqn:H.
  { left. exists (normalize e).
    split; [exact (post_form_unreadable req e w H)|].
    split; [apply normalize_nonempty | apply normalize_generic]. }
  assert (Hnone : (forall f, lookup "file" fields <> Some (FormFile f)) ->
                  exists message,
                    post req w = (Returned (error_response message), w) /\
                    message <> "" /\
                    includes message "GEMINI_API_KEY" = false).
  { intros Hn. exists "No file uploaded".
    split; [exact (post_no_file req fields w H Hn)|].
    split; [discriminate | reflexivity]. }
  destruct (lookup "file" fields) as [[s|f]|] eqn:Hf;
    try (left; apply Hnone; discriminate).
  destruct (String.eqb_spec (file_type f) "application/pdf") as [Ht|Ht].
  - destruct (Z_gt_le_dec (file_size f) maxBytes) as [Hs|Hs].
    + left. exists "File too large. Max 4MB.".
      split; [exact (post_too_large req fields f w H Hf Ht Hs)|].
      split; [discriminate | reflexivity].
    + right. exists fields, f. auto.
  - left. exists "Uploaded file must be a PDF".
    split; [exact (post_not_pdf req fields f w H Hf Ht)|].
    split; [discriminate | reflexivity].
Qed.

(** The message of a response with status 400 is never empty and never
    names the credential. *)
Lemma post_error_message (req : NextRequest) (w w' : World)
    (resp : NextResponse) :
  post req w = (Returned resp, w') ->
  status resp = 400%Z ->
  exists message,
    body resp = [("error", JString message)] /\
    message <> "" /\ includes message "GEMINI_API_KEY" = false.
Proof.
  intros E Hst.
  destruct (post_cases req w)
    as [(m & Em & Hm)|(fields & f & H & Hf & Ht & Hs)].
  - rewrite Em in E. injection E as <- _. exists m. auto.
  - rewrite (post_accepted req fields f w H Hf Ht Hs) in E.
    destruct (truncate (file_bytes f) w) as [[e|processed] w1].
    + injection E as <- _. exists (normalize e).
      split; [reflexivity|].
      split; [apply normalize_nonempty | apply normalize_generic].
    + destruct (call processed w1) as [[e|json] w2].
      * injection E as <- _. exists (normalize e).
        split; [reflexivity|].
        split; [apply normalize_nonempty | apply normalize_generic].
      * injection E as <- _. discriminate Hst.
Qed.

(** X8.  A file that is declared a PDF and is within the size limit but
    does not load is answered with status 400 after the one attempt to
    load it: the model is not called.  The message is built from the
    message of the library's error ('Unknown error' for a thrown value
    that is no Error): the generic credential message when it mentions
    the credential, the fixed text when it mentions 'not a valid PDF',
    and otherwise the message itself after 'Error processing PDF: '. *)
Theorem post_malformed (req : NextRequest)
    (fields : list (string * FormValue)) (f : File) (e : Thrown)
    (w : World) :
  req_formData req = Returned fields ->
  lookup "file" fields = Some (FormFile f) ->
  file_type f = "application/pdf" ->
  (file_size f <= maxBytes)%Z ->
  pdf_load (file_bytes f) = Threw e ->
  exists message text,
    post req w =
    (Returned (NextResponse_json [("error", JString message)] 400),
     after w [PdfLoad Server (file_bytes f)] 0) /\
    text = match e with
           | ErrorObj _ m => m
           | NonError _ => "Unknown error"
           end /\
    message =
      if includes text "GEMINI_API_KEY" then "API key configuration error"
      else if includes text "not a valid PDF"
      then "The uploaded file is not a valid PDF"
      else ("Error processing PDF: " ++ text)%string.
Proof.
  intros H Hf Ht Hs Hl. exists (normalize e). eexists. split; [|split].
  - rewrite (post_accepted req fields f w H Hf Ht Hs).
    now rewrite (truncate_malformed (file_bytes f) e w Hl).
  - reflexivity.
  - reflexivity.
Qed.

(** X9.  The handler calls the model only for an upload that is a file
    declared a PDF, within the size limit, that loads, and only when the
    credential is set. *)
Theorem model_called_only_when_accepted (req : NextRequest) (w w' : World)
    (o : Outcome NextResponse) :
  post req w = (o, w') ->
  served w' <> served w ->
  exists fields f pages,
    req_formData req = Returned fields /\
    lookup "file" fields = Some (FormFile f) /\
    file_type f = "application/pdf" /\
    (file_size f <= maxBytes)%Z /\
    pdf_load (file_bytes f) = Returned pages /\
    key_missing GEMINI_API_KEY = false.
Proof.
  intros E Hserved.
  destruct (post_cases req w)
    as [(m & Em & _)|(fields & f & H & Hf & Ht & Hs)].
  { rewrite Em in E. injection E as _ <-. now elim Hserved. }
  rewrite (post_accepted req fields f w H Hf Ht Hs) in E.
  destruct (truncate (file_bytes f) w) as [[e|processed] w1] eqn:Htr.
  { injection E as _ <-. apply truncate_served in Htr. now elim Hserved. }
  destruct (truncate_returned _ _ _ _ Htr) as (pages & Hl).
  apply truncate_served in Htr.
  exists fields, f, pages. repeat split; try assumption.
  destruct (key_missing GEMINI_API_KEY) eqn:Hk; [|reflexivity].
  rewrite (call_without_key processed w1 Hk) in E.
  injection E as _ <-. now elim Hserved.
Qed.

(** X10.  With a library that loads what it has saved, every document
    the handler sends to the model loads as a document of at most five
    pages. *)
Theorem model_sees_at_most_five_pages (req : NextRequest) (w w' : World)
    (o : Outcome NextResponse) :
  (forall doc, pdf_load (pdf_save doc) = Returned doc) ->
  post req w = (o, w') ->
  exists events,
    trace w' = trace w ++ events /\
    forall document,
      In (ModelCall document) events ->
      exists pages,
        pdf_load document = Returned pages /\ length pages <= 5.
Proof.
  intros Hrt E.
  destruct (post_cases req w)
    as [(m & Em & _)|(fields & f & H & Hf & Ht & Hs)].
  { rewrite Em in E. injection E as _ <-. exists [].
    split; [now rewrite app_nil_r | contradiction]. }
  rewrite (post_accepted req fields f w H Hf Ht Hs) in E.
  destruct (truncate (file_bytes f) w) as [[e|processed] w1] eqn:Htr.
  { apply truncate_threw in Htr as (_ & ->). injection E as _ <-.
    exists [PdfLoad Server (file_bytes f)]. split; [reflexivity|].
    intros document [Hd | Hd]; [discriminate Hd | contradiction]. }
  pose proof (truncate_bounded _ _ _ _ Hrt Htr) as Hb.
  assert (Hw1 : exists ev,
             w1 = after w ev 0 /\
             forall document, ~ In (ModelCall document) ev).
  { apply truncate_cases in Htr
      as (pages & _ & [(_ & _ & ->)|(_ & _ & ->)]);
      eexists; (split; [reflexivity|]);
      intros document Hin; simpl in Hin;
      repeat (destruct Hin as [Hin|Hin]; [discriminate Hin|]);
      exact Hin. }
  destruct Hw1 as (ev & -> & Hev).
  assert (Hw2 : exists ev' n,
             w' = after (after w ev 0) ev' n /\
             forall document,
               In (ModelCall document) ev' -> document = processed).
  { destruct (call processed (after w ev 0)) as [o2 w2] eqn:Hc.
    assert (w2 = w')
      by (destruct o2; injection E as _ <-; reflexivity).
    subst w2.
    apply call_cases in Hc
      as [(_ & _ & ->) | [(_ & v & _ & Hw) | (_ & e & _ & ->)] ].
    - exists [], 0. split; [now rewrite after_nothing | contradiction].
    - destruct Hw as [ -> | [ -> | -> ] ]; eexists _, _;
        (split; [reflexivity|]); intros document Hin; simpl in Hin;
        repeat (destruct Hin as [Hin|Hin];
                [first [discriminate Hin | now injection Hin as <-]|]);
        contradiction.
    - eexists _, _. split; [reflexivity|]. intros document Hin.
      simpl in Hin.
      repeat (destruct Hin as [Hin|Hin];
              [first [discriminate Hin | now injection Hin as <-]|]).
      contradiction. }
  destruct Hw2 as (ev' & n & Hw' & Hev').
  exists (ev ++ ev'). split.
  - rewrite Hw'. simpl. now rewrite app_assoc.
  - intros document Hin. apply in_app_or in Hin as [Hin|Hin].
    + now elim (Hev document).
    + rewrite (Hev' document Hin). exact Hb.
Qed.

(** ** More on the submission client *)

(** Every submission ends in one of two states of the page: the result
    shown and no error, or no result and an error message that is not
    empty. *)
Lemma submit_shape (originalFile : option File) (w : World) :
  exists ui w',
    submit originalFile w = (Returned ui, w') /\
    ui_loading ui = false /\
    ((ui_error ui = None /\
      validate (ui_json ui) = Valid (ui_json ui) /\
      (ui_json ui = JNull \/ exists out, ui_json ui = JObject out))
     \/ (ui_json ui = JNull /\
         exists message,
           ui_error ui = Some message /\ message <> "" /\
           includes message "GEMINI_API_KEY" = false))
    /\ (originalFile = None ->
        w' = w /\ ui_error ui = Some "Please select a PDF file").
Proof.
  destruct originalFile as [f|].
  2:{ exists (mkUi JNull (Some "Please select a PDF file") false), w.
      split; [reflexivity|]. split; [reflexivity|].
      split; [|auto]. right. split; [reflexivity|].
      eexists. split; [reflexivity|]. split; [discriminate|reflexivity]. }
  assert (Hc : exists fileToSend w1,
             try_catch (client f) (fun e => emit (Warn e) ;; ret f) w
             = (Returned fileToSend, w1)).
  { destruct (client f w) as [[e|x] w1] eqn:Hc.
    - rewrite (client_fallback f w w1 e Hc). eauto.
    - unfold try_catch. rewrite Hc. eauto. }
  destruct Hc as (fileToSend & w1 & Hc).
  destruct (submit_run f fileToSend w w1 Hc) as (resp & w' & E & Hs).
  eexists _, w'. split; [exact Hs|].
  destruct (post_total (upload_of fileToSend) (after w1 [Upload fileToSend] 0))
    as (resp' & w'' & E' & Hcases).
  rewrite E in E'. injection E' as <- <-.
  destruct Hcases as [(Hst & json & Hb)|(Hst & _)].
  - destruct (post_ok _ _ _ _ E Hst)
      as (fields & f' & processed & w2 & json' & _ & _ & _ & _ & _ & Hcall
          & ->).
    destruct (call_returns_valid _ _ _ _ Hcall) as (Hv & Hshape).
    simpl. split; [reflexivity|]. split; [|discriminate]. left. auto.
  - destruct (post_error_message _ _ _ _ E Hst) as (m & Hb & Hne & Hg).
    rewrite Hb. unfold truthy_error. simpl.
    apply String.eqb_neq in Hne as Hne'. rewrite Hne'. simpl.
    split; [reflexivity|]. split; [|discriminate]. right.
    split; [reflexivity|]. exists m. auto.
Qed.


(** X13.  After every submission the page shows exactly one of its three
    panels: the error, the results, or the invitation to upload; the
    last is what a result of null leaves on the screen. *)
Theorem one_panel_after_submit (originalFile : option File) (w : World) :
  exists ui w',
    submit originalFile w = (Returned ui, w') /\
    ((shows_error ui = true /\ shows_results ui = false /\
      shows_placeholder ui = false)
     \/ (shows_error ui = false /\ shows_results ui = true /\
         shows_placeholder ui = false /\ ui_json ui <> JNull)
     \/ (shows_error ui = false /\ shows_results ui = false /\
         shows_placeholder ui = true /\ ui_json ui = JNull /\
         ui_error ui = None)).
Proof.
  destruct (submit_shape originalFile w)
    as (ui & w' & E & Hl & Hcases & _).
  exists ui, w'. split; [exact E|].
  unfold shows_error, shows_results, shows_placeholder.
  destruct Hcases as [(He & _ & [Hj|(out & Hj)])|(Hj & m & He & Hne & _)];
    rewrite ?He, ?Hj, ?Hl; simpl.
  - right. right. auto.
  - right. left. repeat split. discriminate.
  - left. apply String.eqb_neq in Hne. rewrite Hne. auto.
Qed.



Lemma includes_eq_step (a : ascii) (s needle : string) :
  String.prefix needle (String a s) = false ->
  includes (String a s) needle = includes s needle.
Proof. intros H. rewrite includes_eq, H. reflexivity. Qed.

(** The error of exhausted retries, as the [catch] of the handler words
    it: what counts is the description of the last error. *)
Lemma normalize_exhausted (lastError : option Thrown) :
  normalize (exhausted lastError) =
  if includes (describe lastError) "GEMINI_API_KEY"
  then "API key configuration error"
  else if includes (describe lastError) "not a valid PDF"
  then "The uploaded file is not a valid PDF"
  else ("Error processing PDF: "
        ++ "Failed to get response from Gemini via AI SDK after 3 attempts: "
        ++ describe lastError)%string.
Proof.
  unfold normalize, exhausted, new_Error.
  change (string_of_nat MAX_RETRIES) with "3".
  set (d := describe lastError).
  assert (Hk : includes
                 ("Failed to get response from Gemini via AI SDK after "
                  ++ "3" ++ " attempts: " ++ d) "GEMINI_API_KEY"
               = includes d "GEMINI_API_KEY").
  { simpl. repeat (rewrite includes_eq_step by reflexivity). reflexivity. }
  assert (Hp : includes
                 ("Failed to get response from Gemini via AI SDK after "
                  ++ "3" ++ " attempts: " ++ d) "not a valid PDF"
               = includes d "not a valid PDF").
  { simpl. repeat (rewrite includes_eq_step by reflexivity). reflexivity. }
  rewrite Hk, Hp. reflexivity.
Qed.

(** The error the caller reports when the retries are exhausted is the
    one the third attempt threw. *)
Lemma call_exhausted_last (pdfBytes : list byte) (w : World) :
  key_missing GEMINI_API_KEY = false ->
  (forall k, k < MAX_RETRIES ->
             reply_fails (model (served w + k) pdfBytes)) ->
  exists e,
    fst (generate pdfBytes
           (after w [ModelCall pdfBytes; Sleep 2000;
                     ModelCall pdfBytes; Sleep 4000] 2)) = Threw e /\
    call pdfBytes w =
    (Threw (exhausted (Some e)),
     after w [ModelCall pdfBytes; Sleep 2000;
              ModelCall pdfBytes; Sleep 4000;
              ModelCall pdfBytes] 3).
Proof.
  intros Hk Hf. unfold callGeminiUsingAiSdk. rewrite Hk.
  assert (H0 : 0 < MAX_RETRIES) by (unfold MAX_RETRIES; lia).
  assert (H1 : 1 < MAX_RETRIES) by (unfold MAX_RETRIES; lia).
  assert (H2 : 2 < MAX_RETRIES) by (unfold MAX_RETRIES; lia).
  destruct (generate_fails pdfBytes w) as (e1 & E1).
  { specialize (Hf 0 H0). now rewrite Nat.add_0_r in Hf. }
  rewrite (retry_throws pdfBytes 0 None w e1 H0 E1).
  change (0 + 1 <? MAX_RETRIES) with true. cbv iota.
  change (0 + 1) with 1. change (delayMs 1) with 2000%Z.
  destruct (generate_fails pdfBytes
              (after w [ModelCall pdfBytes; Sleep 2000] 1)) as (e2 & E2).
  { exact (Hf 1 H1). }
  rewrite (retry_throws pdfBytes 1 _ _ e2 H1 E2).
  change (1 + 1 <? MAX_RETRIES) with true. cbv iota.
  change (1 + 1) with 2. change (delayMs 2) with 4000%Z.
  rewrite after_after. simpl app. change (1 + 1) with 2.
  destruct (generate_fails pdfBytes
              (after w [ModelCall pdfBytes; Sleep 2000;
                        ModelCall pdfBytes; Sleep 4000] 2)) as (e3 & E3).
  { exact (Hf 2 H2). }
  rewrite (retry_throws pdfBytes 2 _ _ e3 H2 E3).
  change (2 + 1 <? MAX_RETRIES) with false. cbv iota.
  exists e3. split; [exact E3|]. rewrite retry_step.
  change (2 + 1 <? MAX_RETRIES) with false. cbv iota.
  rewrite after_after. reflexivity.
Qed.

(** X18.  When the three attempts of an accepted upload fail, the answer
    is status 400 after three requests, and its message depends on the
    error of the third attempt alone: if that error mentions the
    credential or 'not a valid PDF', the fixed message for that case is
    sent and the count of attempts is not reported; otherwise the message
    reports the three attempts and ends with that error. *)
Theorem post_exhausted_message (req : NextRequest)
    (fields : list (string * FormValue)) (f : File)
    (processedBytes : list byte) (w w1 : World) :
  req_formData req = Returned fields ->
  lookup "file" fields = Some (FormFile f) ->
  file_type f = "application/pdf" ->
  (file_size f <= maxBytes)%Z ->
  truncate (file_bytes f) w = (Returned processedBytes, w1) ->
  key_missing GEMINI_API_KEY = false ->
  (forall k, k < MAX_RETRIES ->
             reply_fails (model (served w1 + k) processedBytes)) ->
  exists e message,
    fst (generate processedBytes
           (after w1 [ModelCall processedBytes; Sleep 2000;
                      ModelCall processedBytes; Sleep 4000] 2)) = Threw e /\
    post req w =
    (Returned (NextResponse_json [("error", JString message)] 400),
     after w1 [ModelCall processedBytes; Sleep 2000;
               ModelCall processedBytes; Sleep 4000;
               ModelCall processedBytes] 3) /\
    message =
      if includes (describe (Some e)) "GEMINI_API_KEY"
      then "API key configuration error"
      else if includes (describe (Some e)) "not a valid PDF"
      then "The uploaded file is not a valid PDF"
      else ("Error processing PDF: "
            ++ "Failed to get response from Gemini via AI SDK after "
            ++ "3 attempts: " ++ describe (Some e))%string.
Proof.
  intros H Hf Ht Hs Htr Hk Hfail.
  destruct (call_exhausted_last processedBytes w1 Hk Hfail)
    as (e & He & Hc).
  exists e, (normalize (exhausted (Some e))).
  split; [exact He|]. split.
  - rewrite (post_accepted req fields f w H Hf Ht Hs), Htr, Hc. reflexivity.
  - apply normalize_exhausted.
Qed.
End HandlerProperties.

(** ** The claims on sample inputs *)

Lemma call_fails_after_three_attempts_witness :
  exists e message,
    callGeminiUsingAiSdk Sample.failing Sample.no_object (Some "secret")
      Sample.three start =
    (Threw (new_Error message),
     after start [ModelCall Sample.three; Sleep 2000;
                  ModelCall Sample.three; Sleep 4000;
                  ModelCall Sample.three] MAX_RETRIES) /\
    message =
      ("Failed to get response from Gemini via AI SDK after 3 attempts: "
       ++ describe (Some e))%string /\
    includes message (string_of_nat MAX_RETRIES ++ " attempts") = true /\
    (forall n, delayMs n = (2 ^ Z.of_nat n * 1000)%Z).
Proof.
  apply (call_fails_after_three_attempts Sample.failing Sample.no_object
           (Some "secret") Sample.three start).
  - reflexivity.
  - intros [|[|k]] _; simpl; try exact I; eexists; reflexivity.
Defined.

Lemma truncate_identity_witness :
  (forall w,
      truncatePDFToFivePagesBuffer byte Sample.load Sample.save
        Sample.copy_fault Sample.three w =
      (Returned Sample.three, after w [PdfLoad Server Sample.three] 0))
  /\ (forall f w,
        file_bytes f = Sample.three ->
        client_truncate byte Sample.load Sample.save Sample.copy_fault f w
        = (Returned f, after w [PdfLoad Client Sample.three] 0) /\
        exists ui w' rest,
          handleSubmit byte Sample.load Sample.save Sample.copy_fault
            Sample.declining Sample.no_object (Some "secret") (Some f) w
          = (Returned ui, w') /\
          trace w' =
          trace w ++ PdfLoad Client Sample.three :: Upload f :: rest).
Proof.
  apply (truncate_identity byte Sample.load Sample.save Sample.copy_fault
           Sample.declining Sample.no_object (Some "secret") Sample.three
           ["a"; "b"; "c"]%byte).
  - reflexivity.
  - simpl. lia.
Defined.

Lemma truncate_first_five_witness :
  (forall w,
      truncatePDFToFivePagesBuffer byte Sample.load Sample.save
        Sample.copy_fault Sample.seven w =
      (Returned ["%"; "a"; "b"; "c"; "d"; "e"]%byte,
       after w [PdfLoad Server Sample.seven; PdfSave Server] 0))
  /\ length (firstn 5 ["a"; "b"; "c"; "d"; "e"; "f"; "g"]%byte) = 5
  /\ (forall i, i < 5 ->
        nth_error (firstn 5 ["a"; "b"; "c"; "d"; "e"; "f"; "g"]%byte) i
        = nth_error ["a"; "b"; "c"; "d"; "e"; "f"; "g"]%byte i)
  /\ (forall f w,
        file_bytes f = Sample.seven ->
        exists fileToSend,
          client_truncate byte Sample.load Sample.save Sample.copy_fault f w
          = (Returned fileToSend,
             after w [PdfLoad Client Sample.seven; PdfSave Client] 0) /\
          file_bytes fileToSend = ["%"; "a"; "b"; "c"; "d"; "e"]%byte).
Proof.
  apply (truncate_first_five byte Sample.load Sample.save Sample.copy_fault
           Sample.seven ["a"; "b"; "c"; "d"; "e"; "f"; "g"]%byte).
  - reflexivity.
  - simpl. lia.
Defined.

Lemma null_is_success_witness :
  POST byte Sample.load Sample.save Sample.copy_fault Sample.declining
    Sample.no_object (Some "secret")
    (upload_of (Sample.pdf "coi.pdf" Sample.three)) start =
  (Returned (NextResponse_json [("data", JNull)] 200),
   after (after start [PdfLoad Server Sample.three] 0)
     [ModelCall Sample.three] 1).
Proof.
  apply (null_is_success byte Sample.load Sample.save Sample.copy_fault
           Sample.declining Sample.no_object (Some "secret")
           (upload_of (Sample.pdf "coi.pdf" Sample.three))
           [("file", FormFile (Sample.pdf "coi.pdf" Sample.three))]
           (Sample.pdf "coi.pdf" Sample.three) Sample.three start
           (after start [PdfLoad Server Sample.three] 0)).
  - reflexivity.
  - reflexivity.
  - reflexivity.
  - vm_compute. discriminate.
  - reflexivity.
  - reflexivity.
  - reflexivity.
Defined.

Lemma missing_credential_witness :
  callGeminiUsingAiSdk Sample.declining Sample.no_object None Sample.three
    start =
  (Threw (new_Error "GEMINI_API_KEY is not set in environment variables"),
   start)
  /\ POST byte Sample.load Sample.save Sample.copy_fault Sample.declining
       Sample.no_object None
       (upload_of (Sample.pdf "coi.pdf" Sample.three)) start =
     (Returned
        (NextResponse_json
           [("error", JString "API key configuration error")] 400),
      after start [PdfLoad Server Sample.three] 0).
Proof.
  destruct (missing_credential byte Sample.load Sample.save
              Sample.copy_fault Sample.declining Sample.no_object None
              (or_introl eq_refl)) as (Hcall & Hpost & _).
  split.
  - exact (Hcall Sample.three start).
  - apply (Hpost (upload_of (Sample.pdf "coi.pdf" Sample.three))
             [("file", FormFile (Sample.pdf "coi.pdf" Sample.three))]
             (Sample.pdf "coi.pdf" Sample.three) Sample.three start).
    + reflexivity.
    + reflexivity.
    + reflexivity.
    + vm_compute. discriminate.
    + reflexivity.
Defined.

Lemma client_fallback_then_server_witness :
  exists ui w' rest,
    handleSubmit byte Sample.load Sample.save Sample.copy_fault
      Sample.declining Sample.no_object (Some "secret")
      (Some (Sample.pdf "scan.pdf" ["x"; "y"]%byte)) start
    = (Returned ui, w') /\
    trace w' =
    trace (after start [PdfLoad Client ["x"; "y"]%byte] 0)
    ++ Warn (new_Error "Failed to parse PDF document: No PDF header found")
       :: Upload (Sample.pdf "scan.pdf" ["x"; "y"]%byte) :: rest /\
    (file_type (Sample.pdf "scan.pdf" ["x"; "y"]%byte) = "application/pdf" ->
     (file_size (Sample.pdf "scan.pdf" ["x"; "y"]%byte) <= maxBytes)%Z ->
     exists rest', rest = PdfLoad Server ["x"; "y"]%byte :: rest') /\
    (file_type (Sample.pdf "scan.pdf" ["x"; "y"]%byte) <> "application/pdf"
     \/ (file_size (Sample.pdf "scan.pdf" ["x"; "y"]%byte) > maxBytes)%Z ->
     rest = []).
Proof.
  apply (client_fallback_then_server byte Sample.load Sample.save
           Sample.copy_fault Sample.declining Sample.no_object
           (Some "secret") (Sample.pdf "scan.pdf" ["x"; "y"]%byte) start).
  reflexivity.
Defined.

(** C7 as stated fails: the text file [Sample.notes] does not parse on the
    client, is uploaded as it is, and is turned away by the handler for
    its media type; the handler never loads it for truncation. *)
Lemma server_truncation_skipped :
  client_truncate byte Sample.load Sample.save Sample.copy_fault
    Sample.notes start =
  (Threw (new_Error "Failed to parse PDF document: No PDF header found"),
   mkWorld [PdfLoad Client (file_bytes Sample.notes)] 0)
  /\ handleSubmit byte Sample.load Sample.save Sample.copy_fault
       Sample.declining Sample.no_object (Some "secret")
       (Some Sample.notes) start =
     (Returned (mkUi JNull (Some "Uploaded file must be a PDF") false),
      mkWorld
        [PdfLoad Client (file_bytes Sample.notes);
         Warn (new_Error "Failed to parse PDF document: No PDF header found");
         Upload Sample.notes] 0)
  /\ ~ In (PdfLoad Server (file_bytes Sample.notes))
       (trace
          (snd (handleSubmit byte Sample.load Sample.save Sample.copy_fault
                  Sample.declining Sample.no_object (Some "secret")
                  (Some Sample.notes) start))).
Proof.
  split; [reflexivity|]. split; [reflexivity|].
  vm_compute. intros [H|[H|[H|[]]]]; discriminate H.
Qed.

Lemma oversized_rejected_witness :
  exists message,
    POST byte Sample.load Sample.save Sample.copy_fault Sample.declining
      Sample.no_object (Some "secret") (upload_of Sample.large) start =
    (Returned (NextResponse_json [("error", JString message)] 400), start) /\
    (message = "File too large. Max 4MB." \/
     message = "Uploaded file must be a PDF") /\
    (file_type Sample.large = "application/pdf" ->
     message = "File too large. Max 4MB.") /\
    maxBytes = 4194304%Z.
Proof.
  apply (oversized_rejected byte Sample.load Sample.save Sample.copy_fault
           Sample.declining Sample.no_object (Some "secret")
           (upload_of Sample.large) [("file", FormFile Sample.large)]
           Sample.large start).
  - reflexivity.
  - reflexivity.
  - reflexivity.
Defined.

Lemma post_responses_witness :
  exists resp w',
    POST byte Sample.load Sample.save Sample.copy_fault Sample.failing
      Sample.no_object (Some "secret")
      (upload_of (Sample.pdf "coi.pdf" Sample.three)) start
    = (Returned resp, w') /\
    status resp = 400%Z.
Proof.
  destruct (post_responses byte Sample.load Sample.save Sample.copy_fault
              Sample.failing Sample.no_object (Some "secret")
              (upload_of (Sample.pdf "coi.pdf" Sample.three)) start)
    as (resp & w' & E & _ & _ & _ & _ & Hfail).
  exists resp, w'. split; [exact E|].
  apply Hfail, retries_exhausted.
  intros [|[|k]] document; simpl; try exact I; eexists; reflexivity.
Defined.

(** ** The further properties on sample inputs *)

Lemma call_succeeds_after_failures_witness :
  callGeminiUsingAiSdk Scenario.recovering Sample.no_object (Some "secret")
    Sample.three start =
  (Returned Sample.complete,
   after start
     (failed_attempts Sample.three 0 2 ++ [ModelCall Sample.three]) (2 + 1))
  /\ failed_attempts Sample.three 0 2 =
     [ModelCall Sample.three; Sleep 2000; ModelCall Sample.three; Sleep 4000].
Proof.
  apply (call_succeeds_after_failures Scenario.recovering Sample.no_object
           (Some "secret") Sample.three Sample.complete Sample.complete 2
           start).
  - reflexivity.
  - unfold MAX_RETRIES. lia.
  - intros [|[|j]] Hj; simpl; [exact I | eexists; reflexivity | lia].
  - reflexivity.
  - reflexivity.
Defined.

Lemma call_effects_witness :
  (key_missing (Some "secret") = true /\
   Returned JNull =
   Threw (new_Error "GEMINI_API_KEY is not set in environment variables") /\
   after start [ModelCall Sample.three] 1 = start)
  \/ (key_missing (Some "secret") = false /\
      exists v,
        Returned JNull = Returned v /\
        (after start [ModelCall Sample.three] 1
         = after start [ModelCall Sample.three] 1 \/
         after start [ModelCall Sample.three] 1
         = after start [ModelCall Sample.three; Sleep 2000;
                        ModelCall Sample.three] 2 \/
         after start [ModelCall Sample.three] 1
         = after start [ModelCall Sample.three; Sleep 2000;
                        ModelCall Sample.three; Sleep 4000;
                        ModelCall Sample.three] 3))
  \/ (key_missing (Some "secret") = false /\
      exists e,
        Returned JNull = Threw (exhausted (Some e)) /\
        after start [ModelCall Sample.three] 1
        = after start [ModelCall Sample.three; Sleep 2000;
                       ModelCall Sample.three; Sleep 4000;
                       ModelCall Sample.three] 3).
Proof.
  apply (call_effects Sample.declining Sample.no_object (Some "secret")
           Sample.three start (after start [ModelCall Sample.three] 1)
           (Returned JNull)).
  reflexivity.
Defined.


Lemma truncate_twice_witness :
  truncatePDFToFivePagesBuffer byte Sample.load Sample.save
    Sample.copy_fault ["%"; "a"; "b"; "c"; "d"; "e"]%byte start =
  (Returned ["%"; "a"; "b"; "c"; "d"; "e"]%byte,
   after start [PdfLoad Server ["%"; "a"; "b"; "c"; "d"; "e"]%byte] 0).
Proof.
  apply (truncate_twice byte Sample.load Sample.save Sample.copy_fault
           Sample.seven ["%"; "a"; "b"; "c"; "d"; "e"]%byte start
           (after start [PdfLoad Server Sample.seven; PdfSave Server] 0)).
  - intros doc. reflexivity.
  - reflexivity.
Defined.

Lemma post_malformed_witness :
  POST byte Sample.load Sample.save Sample.copy_fault Sample.declining
    Sample.no_object (Some "secret") (upload_of Scenario.scan) start =
  (Returned
     (NextResponse_json
        [("error",
          JString
            "Error processing PDF: Failed to parse PDF document: No PDF header found")]
        400),
   after start [PdfLoad Server (file_bytes Scenario.scan)] 0).
Proof.
  destruct (post_malformed byte Sample.load Sample.save Sample.copy_fault
              Sample.declining Sample.no_object (Some "secret")
              (upload_of Scenario.scan) [("file", FormFile Scenario.scan)]
              Scenario.scan
              (new_Error "Failed to parse PDF document: No PDF header found")
              start eq_refl eq_refl eq_refl
              ltac:(vm_compute; discriminate) eq_refl)
    as (message & text & E & Htext & Hmessage).
  rewrite Htext in Hmessage. rewrite Hmessage in E. exact E.
Defined.

Lemma model_called_only_when_accepted_witness :
  exists fields f pages,
    req_formData (upload_of Scenario.coi) = Returned fields /\
    lookup "file" fields = Some (FormFile f) /\
    file_type f = "application/pdf" /\
    (file_size f <= maxBytes)%Z /\
    Sample.load (file_bytes f) = Returned pages /\
    key_missing (Some "secret") = false.
Proof.
  apply (model_called_only_when_accepted byte Sample.load Sample.save
           Sample.copy_fault Sample.declining Sample.no_object
           (Some "secret") (upload_of Scenario.coi) start
           (after start [PdfLoad Server Sample.three;
                         ModelCall Sample.three] 1)
           (Returned (NextResponse_json [("data", JNull)] 200))).
  - reflexivity.
  - simpl. lia.
Defined.

Lemma model_sees_at_most_five_pages_witness :
  exists events,
    [PdfLoad Server Sample.seven; PdfSave Server;
     ModelCall ["%"; "a"; "b"; "c"; "d"; "e"]%byte]
    = trace start ++ events /\
    forall document,
      In (ModelCall document) events ->
      exists pages,
        Sample.load document = Returned pages /\ length pages <= 5.
Proof.
  apply (model_sees_at_most_five_pages byte Sample.load Sample.save
           Sample.copy_fault Sample.declining Sample.no_object
           (Some "secret") (upload_of Scenario.long) start
           (mkWorld
              [PdfLoad Server Sample.seven; PdfSave Server;
               ModelCall ["%"; "a"; "b"; "c"; "d"; "e"]%byte] 1)
           (Returned (NextResponse_json [("data", JNull)] 200))).
  - intros doc. reflexivity.
  - reflexivity.
Defined.


Lemma post_exhausted_message_witness :
  exists e message,
    fst (generateObject Sample.failing Sample.no_object response_schema
           Sample.three
           (after (after start [PdfLoad Server Sample.three] 0)
              [ModelCall Sample.three; Sleep 2000;
               ModelCall Sample.three; Sleep 4000] 2)) = Threw e /\
    POST byte Sample.load Sample.save Sample.copy_fault Sample.failing
      Sample.no_object (Some "secret") (upload_of Scenario.coi) start =
    (Returned (NextResponse_json [("error", JString message)] 400),
     after (after start [PdfLoad Server Sample.three] 0)
       [ModelCall Sample.three; Sleep 2000;
        ModelCall Sample.three; Sleep 4000;
        ModelCall Sample.three] 3) /\
    message =
      if includes (describe (Some e)) "GEMINI_API_KEY"
      then "API key configuration error"
      else if includes (describe (Some e)) "not a valid PDF"
      then "The uploaded file is not a valid PDF"
      else ("Error processing PDF: "
            ++ "Failed to get response from Gemini via AI SDK after "
            ++ "3 attempts: " ++ describe (Some e))%string.
Proof.
  apply (post_exhausted_message byte Sample.load Sample.save
           Sample.copy_fault Sample.failing Sample.no_object (Some "secret")
           (upload_of Scenario.coi) [("file", FormFile Scenario.coi)]
           Scenario.coi Sample.three start
           (after start [PdfLoad Server Sample.three] 0)).
  - reflexivity.
  - reflexivity.
  - reflexivity.
  - vm_compute. discriminate.
  - reflexivity.
  - reflexivity.
  - intros [|[|k]] _; simpl; try exact I; eexists; reflexivity.
Defined.

(** ** Choosing a file *)

(** The selection is in step when the input is attached and [fileName]
    is the name of the file the input holds, or empty when it holds
    none. *)
Lemma act_in_step (page : UiState * Selection) (a : Action) :
  input_files (snd page) <> None ->
  fileName (snd page) =
    match selected_file (snd page) with
    | Some f => file_name f
    | None => ""
    end ->
  input_files (snd (act page a)) <> None /\
  fileName (snd (act page a)) =
    match selected_file (snd (act page a)) with
    | Some f => file_name f
    | None => ""
    end.
Proof.
  destruct page as [ui [name drag [files|]]]; simpl; [|now intros H].
  intros _ Hname.
  destruct a as [picked|dropped| | |]; simpl;
    unfold handleFileChange, handleDrop, setChosenFile, selected_file; simpl.
  - destruct (first_file picked); simpl; split; (discriminate || reflexivity).
  - destruct (first_file dropped) as [f|]; simpl.
    + destruct (String.eqb (file_type f) "application/pdf"); simpl;
        split; (discriminate || reflexivity || exact Hname).
    + split; [discriminate | exact Hname].
  - split; [discriminate | exact Hname].
  - split; [discriminate | exact Hname].
  - split; [discriminate | reflexivity].
Qed.

(** X15.  Whatever the user does with the file controls (pick, drop, drag
    over, drag away, reset), the name shown is the name of the file the
    input holds, and empty when it holds none.  Hence, whenever the
    submit button is enabled, [handleSubmit] finds a file to send. *)
Theorem selection_in_step (actions : list Action) :
  let page := fold_left act actions first_page in
  fileName (snd page) =
    match selected_file (snd page) with
    | Some f => file_name f
    | None => ""
    end
  /\ (submit_disabled (fst page) (snd page) = false ->
      exists f,
        selected_file (snd page) = Some f /\
        file_name f = fileName (snd page)).
Proof.
  cbv zeta.
  assert (H : input_files (snd (fold_left act actions first_page)) <> None /\
              fileName (snd (fold_left act actions first_page)) =
                match selected_file (snd (fold_left act actions first_page))
                with
                | Some f => file_name f
                | None => ""
                end).
  { assert (Hgen : forall page,
               input_files (snd page) <> None /\
               fileName (snd page) =
                 match selected_file (snd page) with
                 | Some f => file_name f
                 | None => ""
                 end ->
               input_files (snd (fold_left act actions page)) <> None /\
               fileName (snd (fold_left act actions page)) =
                 match selected_file (snd (fold_left act actions page)) with
                 | Some f => file_name f
                 | None => ""
                 end).
    { induction actions as [|a l IH]; intros page Hp; simpl; [exact Hp|].
      apply IH. destruct Hp as [Hin Hname]. now apply act_in_step. }
    apply Hgen. split; [discriminate | reflexivity]. }
  destruct H as [_ Hname]. split; [exact Hname|].
  unfold submit_disabled. intros Hd.
  apply orb_false_iff in Hd as [_ Hd]. apply String.eqb_neq in Hd.
  destruct (selected_file (snd (fold_left act actions first_page))) as [f|].
  - exists f. auto.
  - now elim Hd.
Qed.

Lemma act_keeps_pdf (page : UiState * Selection) (a : Action) :
  is_pick a = false ->
  (forall f, selected_file (snd page) = Some f ->
             file_type f = "application/pdf") ->
  forall f, selected_file (snd (act page a)) = Some f ->
            file_type f = "application/pdf".
Proof.
  destruct page as [ui [name drag files]].
  destruct a as [picked|dropped| | |]; simpl; try discriminate;
    intros _ Hpdf; try exact Hpdf.
  - unfold handleDrop, setChosenFile, selected_file. simpl.
    destruct (first_file dropped) as [g|]; simpl; [|exact Hpdf].
    destruct (String.eqb_spec (file_type g) "application/pdf") as [Hg|_];
      simpl; [|exact Hpdf].
    destruct files; simpl; [|discriminate].
    now intros f [= <-].
  - unfold selected_file. simpl. destruct files; simpl; discriminate.
Qed.

(** X16.  Dropping files can only ever select a PDF: as long as the file
    dialog is not used, the file the input holds, if any, is declared
    'application/pdf'. *)
Theorem drop_selects_only_pdf (actions : list Action) (f : File) :
  forallb (fun a => negb (is_pick a)) actions = true ->
  selected_file (snd (fold_left act actions first_page)) = Some f ->
  file_type f = "application/pdf".
Proof.
  assert (Hgen : forall page,
             (forall g, selected_file (snd page) = Some g ->
                        file_type g = "application/pdf") ->
             forallb (fun a => negb (is_pick a)) actions = true ->
             forall g,
               selected_file (snd (fold_left act actions page)) = Some g ->
               file_type g = "application/pdf").
  { induction actions as [|a l IH]; intros page Hp Hno; simpl;
      [exact Hp|].
    simpl in Hno. apply andb_true_iff in Hno as [Ha Hl].
    apply IH; [|exact Hl].
    apply act_keeps_pdf; [now apply negb_true_iff in Ha | exact Hp]. }
  intros Hno. apply Hgen; [|exact Hno].
  intros g Hg. discriminate Hg.
Qed.

Lemma drop_selects_only_pdf_witness :
  file_type Scenario.coi = "application/pdf".
Proof.
  apply (drop_selects_only_pdf
           [DropFiles (Some [Scenario.coi]); DragOver;
            DropFiles (Some [Sample.notes]); DragLeave]
           Scenario.coi).
  - reflexivity.
  - reflexivity.
Defined.

(** ** The name of a truncated upload *)

Lemma substring_skip (base s : string) (k m : nat) :
  substring (String.length base + k) m (base ++ s)%string = substring k m s.
Proof. induction base as [|a base IH]; simpl; [reflexivity | exact IH]. Qed.

Lemma substring_take (base s : string) :
  substring 0 (String.length base) (base ++ s)%string = base.
Proof.
  induction base as [|a base IH]; simpl.
  - now destruct s.
  - now rewrite IH.
Qed.

Lemma length_app_string (s t : string) :
  String.length (s ++ t)%string = String.length s + String.length t.
Proof. induction s as [|a s IH]; simpl; [reflexivity | now rewrite IH]. Qed.

Lemma lower_length (s : string) :
  String.length (lower_string s) = String.length s.
Proof. induction s as [|a s IH]; simpl; [reflexivity | now rewrite IH]. Qed.

Lemma strip_pdf_suffix_app (base ext : string) :
  lower_string ext = ".pdf" ->
  strip_pdf_suffix (base ++ ext) = base.
Proof.
  intros Hext.
  assert (Hlen : String.length ext = 4)
    by (rewrite <- lower_length, Hext; reflexivity).
  unfold strip_pdf_suffix.
  rewrite length_app_string, Hlen, Nat.add_sub.
  replace (4 <=? String.length base + 4) with true
    by (symmetry; apply Nat.leb_le; lia).
  rewrite <- (Nat.add_0_r (String.length base)) at 1.
  rewrite substring_skip.
  assert (Hsub : substring 0 4 ext = ext).
  { destruct ext as [|a [|b [|c [|d [|x ext]]]]]; try discriminate Hlen.
    reflexivity. }
  rewrite Hsub, Hext. simpl. apply substring_take.
Qed.

(** X17.  When the client truncates a file whose name ends in '.pdf', in
    any mix of upper and lower case, the upload is named after it with
    that ending replaced by '.first5.pdf'; it is declared a PDF and its
    size is the length of its bytes. *)
Theorem first5_name (Page : Type)
    (pdf_load : list byte -> Outcome (list Page))
    (pdf_save : list Page -> list byte) (copy_fault : Thrown)
    (f : File) (base ext : string) (pages : list Page) (w : World) :
  file_name f = (base ++ ext)%string ->
  lower_string ext = ".pdf" ->
  pdf_load (file_bytes f) = Returned pages ->
  5 < length pages ->
  exists fileToSend w1,
    client_truncate Page pdf_load pdf_save copy_fault f w
    = (Returned fileToSend, w1) /\
    file_name fileToSend = (base ++ ".first5.pdf")%string /\
    file_type fileToSend = "application/pdf" /\
    file_size fileToSend = Z.of_nat (length (file_bytes fileToSend)).
Proof.
  intros Hname Hext Hl Hn. eexists _, _. split.
  - exact (client_large Page pdf_load pdf_save copy_fault f pages w Hl Hn).
  - simpl. rewrite Hname, (strip_pdf_suffix_app base ext Hext). auto.
Qed.

Lemma first5_name_witness :
  exists fileToSend w1,
    client_truncate byte Sample.load Sample.save Sample.copy_fault
      Scenario.long start
    = (Returned fileToSend, w1) /\
    file_name fileToSend = "Long.first5.pdf" /\
    file_type fileToSend = "application/pdf" /\
    file_size fileToSend = Z.of_nat (length (file_bytes fileToSend)).
Proof.
  apply (first5_name byte Sample.load Sample.save Sample.copy_fault
           Scenario.long "Long" ".PDF"
           ["a"; "b"; "c"; "d"; "e"; "f"; "g"]%byte start).
  - reflexivity.
  - reflexivity.
  - reflexivity.
  - simpl. lia.
Defined.
